(** * Supportly knowledge base: file ingestion and deletion

    Shallow embedding of [packages/backend/convex/private/files.ts]
    ([guessMimeType], [deleteFile], [addFile]) over an explicit model of the
    stores the handlers talk to: the Convex blob storage ([ctx.storage]), the
    RAG component ([rag], namespaces + entries + chunks) and the identity
    supplied by [ctx.auth]. *)

From stdpp Require Import gmap strings list fin_maps pretty.
From Stdlib Require Import Lia.

Open Scope string_scope.
Open Scope list_scope.

(** ** JavaScript values *)

(** The values this code base stores in metadata and returns from handlers:
    strings and [null]. *)
Inductive JVal : Type :=
  | JNull
  | JStr (s : string).

#[global] Instance JVal_eq_dec : EqDecision JVal.
Proof. solve_decision. Defined.

(** JavaScript truthiness of a string: only the empty string is falsy. *)
Definition str_truthy (s : string) : bool := negb (String.eqb s "").

(** Truthiness of a possibly-[undefined] string. *)
Definition opt_truthy (o : option string) : bool :=
  match o with
  | Some s => str_truthy s
  | None => false
  end.

(** [a || b] on possibly-[undefined] strings. *)
Definition js_or (a b : option string) : option string :=
  if opt_truthy a then a else b.

(** [a || "literal"]: the right operand is a string, so is the result. *)
Definition js_or_str (a : option string) (b : string) : string :=
  match a with
  | Some s => if str_truthy s then s else b
  | None => b
  end.

(** [c ?? null] *)
Definition nullish_or_null (c : option string) : JVal :=
  match c with
  | Some s => JStr s
  | None => JNull
  end.

(** An object literal / free-form record. *)
Abbreviation JObject := (gmap string JVal).

Definition bytes := list Byte.byte.

(** ** Errors *)

Inductive ErrorCode : Type := UNAUTHORIZED | NOT_FOUND.

(** [ConvexError] is what the handlers throw themselves; [Thrown] stands for
    an exception raised inside a collaborator (text extraction, embedding). *)
Inductive Error : Type :=
  | ConvexError (code : ErrorCode) (message : string)
  | Thrown (message : string).

(** ** Collaborators outside this file

    The pure helpers imported from [@convex-dev/rag], the text extractor of
    [../lib/extractTextContent] and the chunking / embedding steps of the RAG
    component are taken as an interface. *)

Definition Vector := list Z.

Class Collaborators : Type := {
  guessMimeTypeFromExtension : string → option string;
  guessMimeTypeFromContents : bytes → option string;
  contentHashFromArrayBuffer : bytes → string;
  (** [extractTextContent(ctx, {storageId, filename, bytes, mimeType})] *)
  extractTextContent : string → string → bytes → string → Error + string;
  defaultChunker : string → list string;
  (** [None]: the embedding call failed. *)
  embed : string → option Vector
}.

(** ** Stores *)

Record Blob : Type := mkBlob {
  blob_bytes : bytes;
  blob_type : string
}.

Record Entry : Type := mkEntry {
  entryId : string;
  namespace : string;
  key : string;
  title : string;
  contentHash : string;
  metadata : option JObject
}.

Record Chunk : Type := mkChunk {
  chunk_entry : string;
  chunk_namespace : string;
  chunk_order : nat;
  chunk_text : string;
  chunk_vector : Vector
}.

(** Write effects, recorded in the order they happen. *)
Inductive Effect : Type :=
  | BlobStored (storageId : string)
  | BlobDeleted (storageId : string)
  | NamespaceCreated (ns : string)
  | ChunksInserted (entry : string) (count : nat)
  | EntryInserted (entry : string)
  | ChunksDeleted (entry : string)
  | EntryDeleted (entry : string)
  | ConsoleDebug (message : string).

#[global] Instance Effect_eq_dec : EqDecision Effect.
Proof. solve_decision. Defined.

Record World : Type := mkWorld {
  blobs : gmap string Blob;
  next_storage : nat;
  namespaces : gset string;
  entries : list Entry;
  chunks : list Chunk;
  next_entry : nat;
  (** history of write effects, oldest first *)
  journal : list Effect
}.

Definition empty_world : World :=
  {| blobs := ∅; next_storage := 0; namespaces := ∅; entries := [];
     chunks := []; next_entry := 0; journal := [] |}.

(** Identifiers issued by the backend are opaque strings, never reused. *)
Definition storage_id (n : nat) : string := "kg" +:+ pretty n.
Definition entry_id (n : nat) : string := "j" +:+ pretty n.

(** ** The handler monad: state plus exceptions.

    An exception keeps the writes made before it (an action is not a
    transaction). *)

Definition M (A : Type) : Type := World → (Error + A) * World.

#[global] Instance M_ret : MRet M := λ A a w, (inr a, w).
#[global] Instance M_bind : MBind M := λ A B f m w,
  match m w with
  | (inr a, w') => f a w'
  | (inl e, w') => (inl e, w')
  end.

Definition throw {A : Type} (e : Error) : M A := λ w, (inl e, w).
Definition get_world : M World := λ w, (inr w, w).

(** Awaiting a collaborator that resolves or rejects without touching the
    stores. *)
Definition lift_result {A : Type} (r : Error + A) : M A := λ w, (r, w).

(** [mutation({ handler })]: the platform runs the handler of a mutation as
    one transaction, so a run that throws commits none of its writes. *)
Definition mutation {A : Type} (handler : M A) : M A := λ w,
  match handler w with
  | (inr a, w') => (inr a, w')
  | (inl e, _) => (inl e, w)
  end.

(** What a call of a mutation can leave behind, whether it finished or was
    cut short: the writes of a run that returned, all of them, or the stores
    as they were (there is no partial commit). *)
Inductive mutation_outcome {A : Type} (handler : M A) (w : World)
  : World → Prop :=
  | outcome_committed a w' :
      handler w = (inr a, w') → mutation_outcome handler w w'
  | outcome_rolled_back : mutation_outcome handler w w.

(** *** Elementary writes *)

Definition log_effect (ev : Effect) (w : World) : World :=
  {| blobs := blobs w; next_storage := next_storage w;
     namespaces := namespaces w; entries := entries w;
     chunks := chunks w; next_entry := next_entry w;
     journal := journal w ++ [ev] |}.

Definition put_blob (sid : string) (b : Blob) (w : World) : World :=
  log_effect (BlobStored sid)
    {| blobs := <[sid := b]> (blobs w);
       next_storage := S (next_storage w);
       namespaces := namespaces w; entries := entries w;
       chunks := chunks w; next_entry := next_entry w;
       journal := journal w |}.

Definition drop_blob (sid : string) (w : World) : World :=
  log_effect (BlobDeleted sid)
    {| blobs := delete sid (blobs w);
       next_storage := next_storage w;
       namespaces := namespaces w; entries := entries w;
       chunks := chunks w; next_entry := next_entry w;
       journal := journal w |}.

Definition register (ns : string) (w : World) : World :=
  if decide (ns ∈ namespaces w) then w
  else log_effect (NamespaceCreated ns)
    {| blobs := blobs w; next_storage := next_storage w;
       namespaces := {[ns]} ∪ namespaces w;
       entries := entries w; chunks := chunks w;
       next_entry := next_entry w; journal := journal w |}.

Definition insert_chunks (eid : string) (cs : list Chunk) (w : World) : World :=
  log_effect (ChunksInserted eid (length cs))
    {| blobs := blobs w; next_storage := next_storage w;
       namespaces := namespaces w; entries := entries w;
       chunks := chunks w ++ cs; next_entry := next_entry w;
       journal := journal w |}.

Definition insert_entry (e : Entry) (w : World) : World :=
  log_effect (EntryInserted (entryId e))
    {| blobs := blobs w; next_storage := next_storage w;
       namespaces := namespaces w; entries := entries w ++ [e];
       chunks := chunks w; next_entry := S (next_entry w);
       journal := journal w |}.

Definition remove_chunks (eid : string) (w : World) : World :=
  log_effect (ChunksDeleted eid)
    {| blobs := blobs w; next_storage := next_storage w;
       namespaces := namespaces w; entries := entries w;
       chunks := filter (λ c, chunk_entry c ≠ eid) (chunks w);
       next_entry := next_entry w; journal := journal w |}.

Definition remove_entry (eid : string) (w : World) : World :=
  log_effect (EntryDeleted eid)
    {| blobs := blobs w; next_storage := next_storage w;
       namespaces := namespaces w;
       entries := filter (λ e, entryId e ≠ eid) (entries w);
       chunks := chunks w; next_entry := next_entry w;
       journal := journal w |}.

(** [console.debug] *)
Definition console_debug (message : string) : M unit :=
  λ w, (inr (), log_effect (ConsoleDebug message) w).

(** ** Blob storage ([ctx.storage]), the Blob Store Adapter *)

(** Modelled from the spec: [store(bytes) -> storageId]; the platform's
    storage is not part of the sources.  Every call issues a new id. *)
Definition storage_store (b : Blob) : M string := λ w,
  let sid := storage_id (next_storage w) in (inr sid, put_blob sid b w).

Definition url_of (sid : string) : string :=
  "https://files.convex.cloud/api/storage/" +:+ sid.

(** Modelled from the spec: [getUrl(storageId) -> url], here
    [string | null]: [null] for an id that holds no blob. *)
Definition storage_getUrl (sid : string) : M JVal := λ w,
  (inr (match blobs w !! sid with
        | Some _ => JStr (url_of sid)
        | None => JNull
        end), w).

(** Modelled from the spec: [delete(storageId) -> void]. *)
Definition storage_delete (sid : string) : M unit :=
  λ w, (inr (), drop_blob sid w).

(** ** The RAG component ([rag], an instance of [RAG] from [@convex-dev/rag]) *)

(** Modelled from the spec: the Namespace Registry, which maps a tenant
    identifier to its search space; [null] for a tenant it does not know. *)
Definition rag_getNamespace (ns : string) : M (option string) := λ w,
  (inr (if decide (ns ∈ namespaces w) then Some ns else None), w).

(** Modelled from the spec: the Entry Store, "load the Entry"; [null] when
    it does not exist. *)
Definition rag_getEntry (eid : string) : M (option Entry) := λ w,
  (inr (find (λ e, String.eqb (entryId e) eid) (entries w)), w).

(** Modelled from the spec: a namespace comes into being with the first
    [rag.add] made under it. *)
Definition getOrCreateNamespace (ns : string) : M unit :=
  λ w, (inr (), register ns w).

(** The dedup test: same namespace, same content hash. *)
Definition same_content (ns hash : string) (e : Entry) : bool :=
  String.eqb (namespace e) ns && String.eqb (contentHash e) hash.

Definition make_chunks (eid ns : string) (parts : list (string * Vector))
  : list Chunk :=
  imap (λ i p, {| chunk_entry := eid; chunk_namespace := ns;
                  chunk_order := i; chunk_text := p.1;
                  chunk_vector := p.2 |}) parts.

(** Entry and chunks are persisted as one unit. *)
Definition commit_entry (e : Entry) (cs : list Chunk) : M unit :=
  λ w, (inr (), insert_entry e (insert_chunks (entryId e) cs w)).

Record AddArgs : Type := mkAddArgs {
  add_namespace : string;
  add_text : string;
  add_key : string;
  add_title : string;
  add_metadata : JObject;
  add_contentHash : string
}.

Section Handlers.
Context `{Collaborators}.

(** Modelled from the spec: [rag.add] of [@convex-dev/rag], whose code is not
    part of the sources.  An Entry is created when no existing Entry in the
    same namespace has the same [contentHash]; otherwise the existing Entry's
    identity is returned with [created = false].  On a new hash the text is
    split into chunks, one embedding is computed per chunk, and Entry and
    chunks are persisted as one unit; a failed embedding call persists
    nothing. *)
Definition rag_add (a : AddArgs) : M (string * bool) :=
  _ ← getOrCreateNamespace (add_namespace a);
  w ← get_world;
  match find (same_content (add_namespace a) (add_contentHash a)) (entries w) with
  | Some existing => mret (entryId existing, false)
  | None =>
    let texts := defaultChunker (add_text a) in
    match mapM embed texts with
    | None => throw (Thrown "embedding failed")
    | Some vectors =>
      let eid := entry_id (next_entry w) in
      _ ← commit_entry
            {| entryId := eid; namespace := add_namespace a;
               key := add_key a; title := add_title a;
               contentHash := add_contentHash a;
               metadata := Some (add_metadata a) |}
            (make_chunks eid (add_namespace a) (zip texts vectors));
      mret (eid, true)
    end
  end.

(** Modelled from the spec: [rag.deleteAsync], "delete all Chunks owned by the
    Entry, then delete the Entry metadata record". *)
Definition rag_deleteAsync (eid : string) : M unit :=
  λ w, (inr (), remove_entry eid (remove_chunks eid w)).

(** ** files.ts *)

Definition guessMimeType (filename : string) (b : bytes) : string :=
  js_or_str
    (js_or (guessMimeTypeFromExtension filename)
           (guessMimeTypeFromContents b))
    "application/octet-stream".

(** What [ctx.auth.getUserIdentity()] resolves to is an argument of the
    handlers: [None] is [null], and [orgId] may be [undefined]. *)
Record UserIdentity : Type := mkIdentity {
  identity_orgId : option string
}.

Definition deleteFile (identity : option UserIdentity) (args_entryId : string)
  : M unit :=
  match identity with
  | None => throw (ConvexError UNAUTHORIZED "Identity not found")
  | Some identity =>
    if negb (opt_truthy (identity_orgId identity)) then
      throw (ConvexError UNAUTHORIZED "Organization not found")
    else
      let orgId := default "" (identity_orgId identity) in
      ns ← rag_getNamespace orgId;
      match ns with
      | None => throw (ConvexError UNAUTHORIZED "Invalid namespace")
      | Some _ =>
        entry ← rag_getEntry args_entryId;
        match entry with
        | None => throw (ConvexError NOT_FOUND "Entry not found")
        | Some entry =>
          if bool_decide ((metadata entry ≫= (.!! "uploadedBy"))
                          ≠ Some (JStr orgId)) then
            throw (ConvexError UNAUTHORIZED "Invalid Organization ID")
          else
            _ ← match metadata entry ≫= (.!! "storageId") with
                | Some (JStr sid) =>
                  if str_truthy sid then storage_delete sid else mret ()
                | _ => mret ()
                end;
            rag_deleteAsync args_entryId
        end
      end
  end.

Record AddFileArgs : Type := mkAddFileArgs {
  arg_filename : string;
  arg_mimeType : string;
  arg_bytes : bytes;
  arg_category : option string
}.

Definition addFile (identity : option UserIdentity) (args : AddFileArgs)
  : M JObject :=
  match identity with
  | None => throw (ConvexError UNAUTHORIZED "Identity not found")
  | Some identity =>
    if negb (opt_truthy (identity_orgId identity)) then
      throw (ConvexError UNAUTHORIZED "Organization not found")
    else
      let orgId := default "" (identity_orgId identity) in
      let b := arg_bytes args in
      let filename := arg_filename args in
      let category := arg_category args in
      let mimeType :=
        if str_truthy (arg_mimeType args) then arg_mimeType args
        else guessMimeType filename b in
      let blob := {| blob_bytes := b; blob_type := mimeType |} in
      storageId ← storage_store blob;
      text ← lift_result (extractTextContent storageId filename b mimeType);
      '(entryId, created) ← rag_add
        {| add_namespace := orgId;
           add_text := text;
           add_key := filename;
           add_title := filename;
           add_metadata :=
             <["storageId" := JStr storageId]>
             (<["uploadedBy" := JStr orgId]>
             (<["filename" := JStr filename]>
             (<["category" := nullish_or_null category]> ∅)));
           add_contentHash := contentHashFromArrayBuffer b |};
      _ ← (if negb created
           then console_debug
                  "This entry already exists, skipping upload metadata"
           else mret ());
      url ← storage_getUrl storageId;
      mret (<["url" := url]> (<["entryId" := JStr entryId]> ∅))
  end.

End Handlers.

(** ** Vocabulary for the properties *)

Section Vocabulary.
Context `{Collaborators}.

(** The caller presents an identity carrying a usable organization claim. *)
Definition authorized (identity : option UserIdentity) (orgId : string) : Prop :=
  identity = Some {| identity_orgId := Some orgId |} ∧ str_truthy orgId = true.

(** The MIME type [addFile] works with (line 111). *)
Definition chosen_mime (args : AddFileArgs) : string :=
  if str_truthy (arg_mimeType args) then arg_mimeType args
  else guessMimeType (arg_filename args) (arg_bytes args).

Definition stored_blob (args : AddFileArgs) : Blob :=
  {| blob_bytes := arg_bytes args; blob_type := chosen_mime args |}.

Definition upload_metadata (sid orgId : string) (args : AddFileArgs) : JObject :=
  <["storageId" := JStr sid]>
  (<["uploadedBy" := JStr orgId]>
  (<["filename" := JStr (arg_filename args)]>
  (<["category" := nullish_or_null (arg_category args)]> ∅))).

Definition new_entry (eid sid orgId : string) (args : AddFileArgs) : Entry :=
  {| entryId := eid; namespace := orgId;
     key := arg_filename args; title := arg_filename args;
     contentHash := contentHashFromArrayBuffer (arg_bytes args);
     metadata := Some (upload_metadata sid orgId args) |}.

Definition result_object (url : JVal) (eid : string) : JObject :=
  <["url" := url]> (<["entryId" := JStr eid]> ∅).

Definition skip_message : string :=
  "This entry already exists, skipping upload metadata".

(** The blob [deleteFile] removes: a truthy [entry.metadata?.storageId]. *)
Definition blob_pointer (entry : Entry) : option string :=
  match metadata entry ≫= (.!! "storageId") with
  | Some (JStr sid) => if str_truthy sid then Some sid else None
  | _ => None
  end.

(** The writes of a [deleteFile] call that passed its checks, in order. *)
Definition delete_steps (entry : Entry) (eid : string) : list (World → World) :=
  match blob_pointer entry with
  | Some sid => [drop_blob sid]
  | None => []
  end ++ [remove_chunks eid; remove_entry eid].

Definition run_steps (steps : list (World → World)) (w : World) : World :=
  foldl (λ w step, step w) w steps.

(** The chain in the spec's words: an ordered list of detector results, tried
    in sequence; the first usable one wins, else the fallback. *)
Fixpoint first_match (detected : list (option string)) (fallback : string)
  : string :=
  match detected with
  | [] => fallback
  | d :: rest =>
    if opt_truthy d then default fallback d else first_match rest fallback
  end.

(** [sid] was handed out before the counter reached [n]. *)
Definition issued (n : nat) (sid : string) : Prop :=
  ∃ k : nat, (k < n)%nat ∧ sid = storage_id k.

(** Every blob, and every storage pointer held by an Entry, was issued by the
    blob store. *)
Definition wf (w : World) : Prop :=
  (∀ sid, is_Some (blobs w !! sid) → issued (next_storage w) sid) ∧
  (∀ e sid, e ∈ entries w →
     metadata e ≫= (.!! "storageId") = Some (JStr sid) →
     issued (next_storage w) sid).

(** The journal entry of a namespace seen for the first time. *)
Definition ns_events (orgId : string) (w : World) : list Effect :=
  if decide (orgId ∈ namespaces w) then [] else [NamespaceCreated orgId].

(** The worlds the two handlers can produce, starting from empty stores. *)
Inductive reachable : World → Prop :=
  | reach_empty : reachable empty_world
  | reach_addFile identity args w :
      reachable w → reachable (addFile identity args w).2
  | reach_deleteFile identity eid w :
      reachable w → reachable (deleteFile identity eid w).2.

(** [eid] was handed out before the Entry counter reached [n]. *)
Definition entry_issued (n : nat) (eid : string) : Prop :=
  ∃ k : nat, (k < n)%nat ∧ eid = entry_id k.

(** Referential integrity of the stores between two handler calls: Entry
    ids are issued and pairwise distinct; every Entry is owned
    ([metadata.uploadedBy]) by its own namespace, that namespace is
    registered, and its [metadata.storageId] names a blob that exists and
    that no other Entry points to; every chunk belongs to an Entry of the
    same namespace. *)
Definition consistent (w : World) : Prop :=
  wf w ∧
  (∀ e, e ∈ entries w → entry_issued (next_entry w) (entryId e)) ∧
  NoDup (entryId <$> entries w) ∧
  (∀ e, e ∈ entries w →
     metadata e ≫= (.!! "uploadedBy") = Some (JStr (namespace e)) ∧
     namespace e ∈ namespaces w ∧
     ∃ sid, blob_pointer e = Some sid ∧ is_Some (blobs w !! sid)) ∧
  (∀ e1 e2, e1 ∈ entries w → e2 ∈ entries w →
     blob_pointer e1 = blob_pointer e2 → entryId e1 = entryId e2) ∧
  (∀ c, c ∈ chunks w →
     ∃ e, e ∈ entries w ∧ entryId e = chunk_entry c ∧
          namespace e = chunk_namespace c).

End Vocabulary.

(** ** A concrete set of collaborators, used to run the handlers *)

Module Demo.

Definition has_suffix (suffix s : string) : bool :=
  let n := String.length s in
  let k := String.length suffix in
  Nat.leb k n && String.eqb (String.substring (n - k) k s) suffix.

Definition text_of (b : bytes) : string := String.string_of_list_byte b.

#[export] Instance collaborators : Collaborators := {|
  guessMimeTypeFromExtension f :=
    if has_suffix ".txt" f then Some "text/plain"
    else if has_suffix ".pdf" f then Some "application/pdf"
    else None;
  guessMimeTypeFromContents b :=
    if String.prefix "%PDF" (text_of b) then Some "application/pdf" else None;
  contentHashFromArrayBuffer b := text_of b;
  extractTextContent _ _ b mime :=
    if String.eqb mime "text/plain" then inr (text_of b)
    else inl (Thrown "Unsupported MIME type");
  defaultChunker t := if String.eqb t "" then [] else [t];
  embed t := if String.eqb t "boom" then None else Some [Z.of_nat (String.length t)]
|}.

Definition acme : option UserIdentity := Some {| identity_orgId := Some "acme" |}.
Definition other : option UserIdentity := Some {| identity_orgId := Some "other" |}.
Definition no_org : option UserIdentity := Some {| identity_orgId := None |}.

Definition faq : AddFileArgs :=
  {| arg_filename := "faq.txt"; arg_mimeType := "";
     arg_bytes := String.list_byte_of_string "hello"; arg_category := None |}.

(** An upload the extractor rejects. *)
Definition scan : AddFileArgs :=
  {| arg_filename := "scan.pdf"; arg_mimeType := "";
     arg_bytes := String.list_byte_of_string "%PDF-1.7";
     arg_category := Some "manuals" |}.

(** A categorised text upload. *)
Definition scan_as_text : AddFileArgs :=
  {| arg_filename := "scan.txt"; arg_mimeType := "";
     arg_bytes := String.list_byte_of_string "page one";
     arg_category := Some "manuals" |}.

(** An upload whose embedding fails. *)
Definition boom : AddFileArgs :=
  {| arg_filename := "boom.txt"; arg_mimeType := "text/plain";
     arg_bytes := String.list_byte_of_string "boom"; arg_category := None |}.

(** A zero-byte text file: its extracted text is empty. *)
Definition blank : AddFileArgs :=
  {| arg_filename := "blank.txt"; arg_mimeType := "";
     arg_bytes := []; arg_category := None |}.

(** The stores after [acme] uploaded [faq] once. *)
Definition one_upload : World := (addFile acme faq empty_world).2.

(** The Entry that upload created. *)
Definition faq_entry : Entry :=
  new_entry "j0" "kg0" "acme" faq.

(** The stores after [other] uploaded the same file as well. *)
Definition two_tenants : World := (addFile other faq one_upload).2.

(** Stores holding an Entry that was indexed without any metadata. *)
Definition legacy_world : World :=
  {| blobs := ∅; next_storage := 0; namespaces := {["acme"]};
     entries := [{| entryId := "j0"; namespace := "acme"; key := "old.txt";
                    title := "old.txt"; contentHash := "old";
                    metadata := None |}];
     chunks := []; next_entry := 1; journal := [] |}.

End Demo.

(** ** Properties of the handlers *)

Section Properties.
Context `{Collaborators}.

Lemma str_truthy_true s : str_truthy s = true ↔ s ≠ "".
Proof.
  unfold str_truthy. rewrite negb_true_iff. split.
  - intros E ->. by rewrite String.eqb_refl in E.
  - intros N. by apply String.eqb_neq.
Qed.

(** *** What each elementary write leaves alone *)

Lemma register_fields ns w :
  blobs (register ns w) = blobs w ∧
  next_storage (register ns w) = next_storage w ∧
  entries (register ns w) = entries w ∧
  chunks (register ns w) = chunks w ∧
  next_entry (register ns w) = next_entry w.
Proof. unfold register. by case_decide. Qed.

Lemma register_journal ns w :
  journal (register ns w) = journal w ++
    (if decide (ns ∈ namespaces w) then [] else [NamespaceCreated ns]).
Proof. unfold register. case_decide; simpl; by rewrite ?app_nil_r. Qed.

Lemma register_namespaces ns w :
  namespaces (register ns w) = {[ns]} ∪ namespaces w.
Proof.
  unfold register. destruct (decide (ns ∈ namespaces w)) as [Hin|Hout]; simpl.
  - symmetry. apply subseteq_union_1_L. by apply singleton_subseteq_l.
  - done.
Qed.

(** The three ways [rag.add] can go. *)
Lemma rag_add_cases a w :
  rag_add a w =
    match find (same_content (add_namespace a) (add_contentHash a)) (entries w) with
    | Some existing => (inr (entryId existing, false), register (add_namespace a) w)
    | None =>
      match mapM embed (defaultChunker (add_text a)) with
      | None => (inl (Thrown "embedding failed"), register (add_namespace a) w)
      | Some vectors =>
        let eid := entry_id (next_entry w) in
        (inr (eid, true),
         insert_entry
           {| entryId := eid; namespace := add_namespace a;
              key := add_key a; title := add_title a;
              contentHash := add_contentHash a;
              metadata := Some (add_metadata a) |}
           (insert_chunks eid
              (make_chunks eid (add_namespace a)
                 (zip (defaultChunker (add_text a)) vectors))
              (register (add_namespace a) w)))
      end
    end.
Proof.
  unfold rag_add, mbind, M_bind, getOrCreateNamespace, get_world.
  destruct (register_fields (add_namespace a) w) as (_&_&->&_&->).
  destruct (find _ (entries w)); [done|].
  by destruct (mapM embed _).
Qed.

(** [addFile] for an authorized caller, step by step. *)
Lemma addFile_cases identity orgId args w :
  authorized identity orgId →
  let sid := storage_id (next_storage w) in
  let w1 := put_blob sid (stored_blob args) w in
  let url := JStr (url_of sid) in
  addFile identity args w =
    match extractTextContent sid (arg_filename args) (arg_bytes args)
            (chosen_mime args) with
    | inl err => (inl err, w1)
    | inr text =>
      match find (same_content orgId
                    (contentHashFromArrayBuffer (arg_bytes args))) (entries w) with
      | Some existing =>
        (inr (result_object url (entryId existing)),
         log_effect (ConsoleDebug skip_message) (register orgId w1))
      | None =>
        match mapM embed (defaultChunker text) with
        | None => (inl (Thrown "embedding failed"), register orgId w1)
        | Some vectors =>
          let eid := entry_id (next_entry w) in
          (inr (result_object url eid),
           insert_entry (new_entry eid sid orgId args)
             (insert_chunks eid
                (make_chunks eid orgId (zip (defaultChunker text) vectors))
                (register orgId w1)))
        end
      end
    end.
Proof.
  intros [-> Horg] sid w1 url. unfold addFile.
  cbn [identity_orgId opt_truthy negb default from_option id]. rewrite Horg. cbn [negb].
  fold (chosen_mime args). fold (stored_blob args).
  unfold mbind at 1. unfold M_bind at 1. unfold storage_store at 1.
  fold sid. fold w1.
  unfold mbind at 1. unfold M_bind at 1. unfold lift_result.
  destruct (extractTextContent sid (arg_filename args) (arg_bytes args)
              (chosen_mime args)) as [err|text]; [done|].
  unfold mbind at 1. unfold M_bind at 1.
  rewrite rag_add_cases. cbn [add_namespace add_contentHash add_text
    add_key add_title add_metadata].
  change (entries w1) with (entries w). change (next_entry w1) with (next_entry w).
  assert (Hurl : ∀ w', blobs w' = blobs (register orgId w1) →
            storage_getUrl sid w' = (inr url, w')).
  { intros w' Hb. unfold storage_getUrl. rewrite Hb.
    destruct (register_fields orgId w1) as (->&_). unfold w1, put_blob. simpl.
    by rewrite lookup_insert_eq. }
  destruct (find _ (entries w)) as [existing|] eqn:Ef.
  - cbn [negb]. unfold mbind, M_bind, console_debug.
    rewrite Hurl by done. done.
  - destruct (mapM embed (defaultChunker text)) as [vectors|]; [|done].
    cbn [negb]. unfold mbind, M_bind, mret, M_ret.
    rewrite Hurl by done. done.
Qed.

(** An unauthenticated or organization-less caller is rejected before any
    write. *)
Lemma addFile_rejected identity args w :
  (∀ orgId, ¬ authorized identity orgId) →
  ∃ msg, addFile identity args w = (inl (ConvexError UNAUTHORIZED msg), w).
Proof.
  intros Hna. unfold addFile. destruct identity as [[org]|]; [|by eexists].
  simpl. destruct org as [o|]; simpl; [|by eexists].
  destruct (str_truthy o) eqn:E; simpl; [|by eexists].
  by destruct (Hna o).
Qed.

(** *** [deleteFile] *)

(** [deleteFile] for an authorized caller, check by check. *)
Lemma deleteFile_cases identity orgId eid w :
  authorized identity orgId →
  deleteFile identity eid w =
    if decide (orgId ∈ namespaces w) then
      match find (λ e, String.eqb (entryId e) eid) (entries w) with
      | None => (inl (ConvexError NOT_FOUND "Entry not found"), w)
      | Some entry =>
        if bool_decide ((metadata entry ≫= (.!! "uploadedBy")) ≠ Some (JStr orgId))
        then (inl (ConvexError UNAUTHORIZED "Invalid Organization ID"), w)
        else (inr (), run_steps (delete_steps entry eid) w)
      end
    else (inl (ConvexError UNAUTHORIZED "Invalid namespace"), w).
Proof.
  intros [-> Horg]. unfold deleteFile.
  cbn [identity_orgId opt_truthy negb default from_option id]. rewrite Horg. cbn [negb].
  unfold mbind at 1. unfold M_bind at 1. unfold rag_getNamespace.
  destruct (decide (orgId ∈ namespaces w)); [|done].
  unfold mbind at 1. unfold M_bind at 1. unfold rag_getEntry.
  destruct (find _ (entries w)) as [entry|]; [|done].
  case_bool_decide; [done|].
  unfold delete_steps, blob_pointer.
  generalize (metadata entry ≫= (.!! "storageId")). intros ptr.
  unfold run_steps, mbind, M_bind, rag_deleteAsync, storage_delete, mret, M_ret.
  destruct ptr as [[|sid]|]; [done| |done].
  by destruct (str_truthy sid).
Qed.

Lemma deleteFile_rejected identity eid w :
  (∀ orgId, ¬ authorized identity orgId) →
  ∃ msg, deleteFile identity eid w = (inl (ConvexError UNAUTHORIZED msg), w).
Proof.
  intros Hna. unfold deleteFile. destruct identity as [[org]|]; [|by eexists].
  simpl. destruct org as [o|]; simpl; [|by eexists].
  destruct (str_truthy o) eqn:E; simpl; [|by eexists].
  by destruct (Hna o).
Qed.

Lemma deleteFile_authorized_dec identity :
  (∃ orgId, authorized identity orgId) ∨ (∀ orgId, ¬ authorized identity orgId).
Proof.
  destruct identity as [[[o|]]|]; [|right; by intros ? [? ?]..].
  destruct (str_truthy o) eqn:E; [left; by exists o|].
  right. intros o' [[= ->] Ho]. congruence.
Qed.

(** No check of [deleteFile] writes anything: a failing call leaves the
    world as it found it. *)
Lemma deleteFile_failure_frame identity eid w err w' :
  deleteFile identity eid w = (inl err, w') → w' = w.
Proof.
  intros Hrun.
  destruct (deleteFile_authorized_dec identity) as [[orgId Ha]|Hna].
  - rewrite (deleteFile_cases _ _ _ _ Ha) in Hrun.
    destruct (decide _); [|by injection Hrun].
    destruct (find _ _); [|by injection Hrun].
    case_bool_decide; by injection Hrun.
  - destruct (deleteFile_rejected identity eid w Hna) as [msg Hr].
    rewrite Hr in Hrun. by injection Hrun.
Qed.

(** C4 (as amended). [deleteFile] fails with [UNAUTHORIZED] when the caller
    has no identity, no organization claim, or an organization whose
    namespace is not registered; with [NOT_FOUND] when the namespace is
    registered and the Entry does not exist; with [UNAUTHORIZED] when the
    Entry exists and [metadata.uploadedBy] differs from the caller's
    organization.  Every failing call leaves the whole world (entries,
    chunks, blobs, journal) exactly as it was. *)
Theorem deleteFile_failure_modes identity eid w r w' :
  deleteFile identity eid w = (r, w') →
  (identity = None →
     r = inl (ConvexError UNAUTHORIZED "Identity not found")) ∧
  (∀ i, identity = Some i → opt_truthy (identity_orgId i) = false →
     r = inl (ConvexError UNAUTHORIZED "Organization not found")) ∧
  (∀ orgId, authorized identity orgId →
     (orgId ∉ namespaces w →
        r = inl (ConvexError UNAUTHORIZED "Invalid namespace")) ∧
     (orgId ∈ namespaces w → (rag_getEntry eid w).1 = inr None →
        r = inl (ConvexError NOT_FOUND "Entry not found")) ∧
     (∀ entry, (rag_getEntry eid w).1 = inr (Some entry) →
        (metadata entry ≫= (.!! "uploadedBy")) ≠ Some (JStr orgId) →
        ∃ msg, r = inl (ConvexError UNAUTHORIZED msg))) ∧
  (∀ err, r = inl err → w' = w).
Proof.
  intros Hrun. split; [|split; [|split]].
  - intros ->. by injection Hrun as <- _.
  - intros i -> Hf. unfold deleteFile in Hrun. rewrite Hf in Hrun.
    by injection Hrun as <- _.
  - intros orgId Ha. rewrite (deleteFile_cases _ _ _ _ Ha) in Hrun.
    unfold rag_getEntry. cbn [fst].
    destruct (decide (orgId ∈ namespaces w)) as [Hin|Hout].
    + split; [done|]. split.
      * intros _ [= Hget]. rewrite Hget in Hrun. by injection Hrun as <- _.
      * intros entry [= Hget] Hne. rewrite Hget in Hrun.
        rewrite bool_decide_eq_true_2 in Hrun by done.
        injection Hrun as <- _. by eexists.
    + injection Hrun as <- _. split; [done|]. split; [done|]. by eexists.
  - intros err ->. by eapply deleteFile_failure_frame.
Qed.

Lemma getEntry_found eid w entry :
  (rag_getEntry eid w).1 = inr (Some entry) →
  entry ∈ entries w ∧ entryId entry = eid.
Proof.
  unfold rag_getEntry. cbn [fst]. intros [= Hf].
  apply find_some in Hf as [Hin Heq]. split.
  - by apply list_elem_of_In.
  - by apply String.eqb_eq.
Qed.

(** A [deleteFile] call that returns normally found its Entry and ran the
    writes of [delete_steps], in that order. *)
Lemma deleteFile_success identity eid w w' :
  deleteFile identity eid w = (inr (), w') →
  ∃ entry, (rag_getEntry eid w).1 = inr (Some entry) ∧
           w' = run_steps (delete_steps entry eid) w.
Proof.
  intros Hrun.
  destruct (deleteFile_authorized_dec identity) as [[orgId Ha]|Hna].
  - rewrite (deleteFile_cases _ _ _ _ Ha) in Hrun.
    destruct (decide _); [|done].
    unfold rag_getEntry. cbn [fst].
    destruct (find _ _) as [entry|]; [|done].
    case_bool_decide; [done|]. injection Hrun as <-. by exists entry.
  - destruct (deleteFile_rejected identity eid w Hna) as [msg Hr]. congruence.
Qed.

(** [deleteFile] is registered with [mutation] (files.ts line 21); as no
    check of the handler writes before it throws, the rollback has nothing
    to undo. *)
Lemma deleteFile_transactional identity eid w :
  mutation (deleteFile identity eid) w = deleteFile identity eid w.
Proof.
  unfold mutation. destruct (deleteFile identity eid w) as [[err|[]] w'] eqn:E.
  - by rewrite (deleteFile_failure_frame _ _ _ _ _ E).
  - done.
Qed.

(** C8. In every successful execution of [deleteFile], dependent data is
    removed before the anchor record: the blob deletion (when a storageId is
    present) and the chunk deletion are journalled before the deletion of the
    Entry record, which comes last.  And whatever a call of this mutation
    leaves behind, finished or interrupted, an Entry record that is still
    there never points to already-deleted dependents: if the record is still
    there, nothing at all has been deleted. *)
Theorem deleteFile_dependents_first identity eid w w' :
  deleteFile identity eid w = (inr (), w') →
  ∃ entry, (rag_getEntry eid w).1 = inr (Some entry) ∧
    journal w' = journal w ++
      match blob_pointer entry with
      | Some sid => [BlobDeleted sid]
      | None => []
      end ++ [ChunksDeleted eid; EntryDeleted eid] ∧
    (∀ e, e ∈ entries w' → entryId e ≠ eid) ∧
    (∀ c, c ∈ chunks w' → chunk_entry c ≠ eid) ∧
    (∀ sid, blob_pointer entry = Some sid → blobs w' !! sid = None) ∧
    ∀ left, mutation_outcome (mutation (deleteFile identity eid)) w left →
      (∃ e, e ∈ entries left ∧ entryId e = eid) →
      left = w.
Proof.
  intros Hrun. destruct (deleteFile_success _ _ _ _ Hrun) as (entry & Hget & ->).
  exists entry. split; [done|].
  assert (Hgone : ∀ e, e ∈ entries (run_steps (delete_steps entry eid) w) →
                       entryId e ≠ eid).
  { unfold delete_steps. destruct (blob_pointer entry); cbn;
      by intros e [? _]%list_elem_of_filter. }
  split; [|split; [done|split; [|split]]].
  - unfold delete_steps. destruct (blob_pointer entry); cbn;
      by rewrite <- !app_assoc.
  - unfold delete_steps. destruct (blob_pointer entry); cbn;
      by intros c [? _]%list_elem_of_filter.
  - unfold delete_steps. intros sid ->. cbn. apply lookup_delete_eq.
  - intros left Hout (e & He & Hid). destruct Hout as [[] w'' Hok|]; [|done].
    rewrite deleteFile_transactional, Hrun in Hok. injection Hok as <-.
    by destruct (Hgone e He).
Qed.

(** *** [addFile]: what a call does to each store *)

Lemma addFile_blobs identity orgId args w :
  authorized identity orgId →
  blobs (addFile identity args w).2 =
    <[storage_id (next_storage w) := stored_blob args]> (blobs w).
Proof.
  intros Ha. rewrite (addFile_cases _ _ _ _ Ha). cbv zeta.
  pose proof (register_fields orgId
    (put_blob (storage_id (next_storage w)) (stored_blob args) w)) as (Hb&_).
  destruct (extractTextContent _ _ _ _); [done|].
  destruct (find _ _); [exact Hb|].
  destruct (mapM _ _); exact Hb.
Qed.

Lemma addFile_next_storage identity orgId args w :
  authorized identity orgId →
  next_storage (addFile identity args w).2 = S (next_storage w).
Proof.
  intros Ha. rewrite (addFile_cases _ _ _ _ Ha). cbv zeta.
  pose proof (register_fields orgId
    (put_blob (storage_id (next_storage w)) (stored_blob args) w)) as (_&Hn&_).
  destruct (extractTextContent _ _ _ _); [done|].
  destruct (find _ _); [exact Hn|].
  destruct (mapM _ _); exact Hn.
Qed.

(** The Entry store grows by at most the one Entry of this call. *)
Lemma addFile_entries identity orgId args w :
  authorized identity orgId →
  let sid := storage_id (next_storage w) in
  let eid := entry_id (next_entry w) in
  entries (addFile identity args w).2 = entries w ∨
  (find (same_content orgId (contentHashFromArrayBuffer (arg_bytes args)))
     (entries w) = None ∧
   (∃ o, (addFile identity args w).1 = inr o) ∧
   entries (addFile identity args w).2 =
     entries w ++ [new_entry eid sid orgId args]).
Proof.
  intros Ha sid eid. rewrite (addFile_cases _ _ _ _ Ha). cbv zeta.
  pose proof (register_fields orgId
    (put_blob (storage_id (next_storage w)) (stored_blob args) w)) as (_&_&He&_).
  destruct (extractTextContent _ _ _ _); [by left|].
  destruct (find _ _); [by left|].
  destruct (mapM _ _); [|by left].
  right. split; [done|]. split; [by eexists|]. cbn. by rewrite He.
Qed.

Lemma upload_metadata_storageId sid orgId args :
  upload_metadata sid orgId args !! "storageId" = Some (JStr sid).
Proof. unfold upload_metadata. by rewrite lookup_insert_eq. Qed.

Lemma upload_metadata_uploadedBy sid orgId args :
  upload_metadata sid orgId args !! "uploadedBy" = Some (JStr orgId).
Proof.
  unfold upload_metadata.
  rewrite lookup_insert_ne by done. by rewrite lookup_insert_eq.
Qed.

(** *** The MIME fallback chain *)

(** C7. [guessMimeType] returns the first value of the chain
    extension-derived type, content-sniffed type, generic binary fallback
    ["application/octet-stream"]; the result is never null (nor empty); and
    [addFile] uses this chain exactly when the supplied [mimeType] is falsy:
    the blob is then stored under that type and the extractor is called with
    it.  A detector result counts as defined when [||] lets it through, that
    is when it is neither [undefined] nor the empty string. *)
Theorem guessMimeType_chain filename b :
  guessMimeType filename b =
    first_match [guessMimeTypeFromExtension filename;
                 guessMimeTypeFromContents b] "application/octet-stream" ∧
  (∀ t, guessMimeTypeFromExtension filename = Some t → t ≠ "" →
        guessMimeType filename b = t) ∧
  (∀ t, guessMimeTypeFromExtension filename = None →
        guessMimeTypeFromContents b = Some t → t ≠ "" →
        guessMimeType filename b = t) ∧
  (guessMimeTypeFromExtension filename = None →
   guessMimeTypeFromContents b = None →
   guessMimeType filename b = "application/octet-stream") ∧
  guessMimeType filename b ≠ "" ∧
  (∀ identity orgId mimeType category w,
     authorized identity orgId →
     let args := {| arg_filename := filename; arg_mimeType := mimeType;
                    arg_bytes := b; arg_category := category |} in
     let sid := storage_id (next_storage w) in
     let used := if str_truthy mimeType then mimeType
                 else guessMimeType filename b in
     blobs (addFile identity args w).2 !! sid =
       Some {| blob_bytes := b; blob_type := used |} ∧
     (∀ err, extractTextContent sid filename b used = inl err →
             addFile identity args w = (inl err, put_blob sid (stored_blob args) w))).
Proof.
  split; [|split; [|split; [|split; [|split]]]].
  1-5: unfold guessMimeType, js_or, js_or_str; cbn [first_match].
  - destruct (guessMimeTypeFromExtension filename) as [e|]; cbn.
    + destruct (str_truthy e) eqn:E; cbn; [by rewrite E|].
      destruct (guessMimeTypeFromContents b) as [c|]; cbn; [|done].
      by destruct (str_truthy c).
    + destruct (guessMimeTypeFromContents b) as [c|]; cbn; [|done].
      by destruct (str_truthy c).
  - intros t -> Ht. apply str_truthy_true in Ht. cbn. by rewrite !Ht.
  - intros t -> -> Ht. apply str_truthy_true in Ht. cbn. by rewrite Ht.
  - by intros -> ->.
  - destruct (guessMimeTypeFromExtension filename) as [e|]; cbn.
    + destruct (str_truthy e) eqn:E; cbn.
      * rewrite E. by apply str_truthy_true.
      * destruct (guessMimeTypeFromContents b) as [c|]; cbn; [|done].
        destruct (str_truthy c) eqn:E'; [by apply str_truthy_true|done].
    + destruct (guessMimeTypeFromContents b) as [c|]; cbn; [|done].
      destruct (str_truthy c) eqn:E'; [by apply str_truthy_true|done].
  - intros identity orgId mimeType category w Ha args sid used. split.
    + rewrite (addFile_blobs _ _ _ _ Ha). by rewrite lookup_insert_eq.
    + intros err Herr. rewrite (addFile_cases _ _ _ _ Ha). cbv zeta.
      change (chosen_mime args) with used. cbn [arg_filename arg_bytes args].
      fold sid. by rewrite Herr.
Qed.

(** *** Storage identifiers are fresh *)

Lemma storage_id_inj n m : storage_id n = storage_id m → n = m.
Proof. unfold storage_id. cbn. intros [= Hp]. by apply (inj pretty). Qed.

Lemma issued_mono (n m : nat) sid : (n ≤ m)%nat → issued n sid → issued m sid.
Proof. intros Hle (k & Hk & ->). exists k. split; [lia|done]. Qed.

Lemma not_issued_next n : ¬ issued n (storage_id n).
Proof. intros (k & Hk & Heq). apply storage_id_inj in Heq. lia. Qed.

Lemma wf_empty : wf empty_world.
Proof.
  split.
  - intros sid [b Hb]. cbn in Hb. by rewrite lookup_empty in Hb.
  - intros e sid He. by apply not_elem_of_nil in He.
Qed.

Lemma wf_fresh_blob w : wf w → blobs w !! storage_id (next_storage w) = None.
Proof.
  intros [Hb _]. destruct (blobs w !! _) eqn:E; [|done].
  destruct (not_issued_next (next_storage w)). apply Hb. by eexists.
Qed.

Lemma wf_fresh_pointer w e :
  wf w → e ∈ entries w →
  metadata e ≫= (.!! "storageId") ≠ Some (JStr (storage_id (next_storage w))).
Proof.
  intros [_ He] Hin Heq. destruct (not_issued_next (next_storage w)). eauto.
Qed.

(** [addFile] keeps the stores well-formed, whoever calls it and however it
    ends. *)
Lemma addFile_wf identity args w : wf w → wf (addFile identity args w).2.
Proof.
  intros Hwf.
  destruct (deleteFile_authorized_dec identity) as [[orgId Ha]|Hna].
  - destruct Hwf as [Hb He]. split.
    + intros sid. rewrite (addFile_blobs _ _ _ _ Ha), (addFile_next_storage _ _ _ _ Ha).
      rewrite lookup_insert. case_decide as Hs.
      * intros _. exists (next_storage w). split; [lia|done].
      * intros Hsome. eapply issued_mono; [|by apply Hb]. lia.
    + intros e sid. rewrite (addFile_next_storage _ _ _ _ Ha).
      destruct (addFile_entries identity orgId args w Ha) as [->|(_&_&->)].
      * intros Hin Hm. eapply issued_mono; [|by eapply He]. lia.
      * rewrite elem_of_app, list_elem_of_singleton. intros [Hin| ->] Hm.
        -- eapply issued_mono; [|by eapply He]. lia.
        -- cbn in Hm. rewrite upload_metadata_storageId in Hm.
           injection Hm as <-. exists (next_storage w). split; [lia|done].
  - destruct (addFile_rejected identity args w Hna) as [msg ->]. done.
Qed.

(** So does [deleteFile]. *)
Lemma deleteFile_wf identity eid w : wf w → wf (deleteFile identity eid w).2.
Proof.
  intros Hwf. destruct (deleteFile identity eid w) as [[err|[]] w'] eqn:E.
  - cbn. by rewrite (deleteFile_failure_frame _ _ _ _ _ E).
  - destruct (deleteFile_success _ _ _ _ E) as (entry & _ & ->). cbn.
    destruct Hwf as [Hb He]. unfold delete_steps.
    destruct (blob_pointer entry) as [sid|]; cbn; split; cbn.
    + intros s [x Hx]. apply lookup_delete_Some in Hx as [_ Hx]. apply Hb. by eexists.
    + intros e s Hin. apply list_elem_of_filter in Hin as [_ Hin]. by apply He.
    + done.
    + intros e s Hin. apply list_elem_of_filter in Hin as [_ Hin]. by apply He.
Qed.

(** Every world the handlers can reach is well-formed. *)
Lemma reachable_wf w : reachable w → wf w.
Proof.
  induction 1 as [|identity args w _ IH|identity eid w _ IH].
  - apply wf_empty.
  - by apply addFile_wf.
  - by apply deleteFile_wf.
Qed.

(** *** The claims about [addFile] *)

Lemma result_object_fields url eid :
  result_object url eid !! "url" = Some url ∧
  result_object url eid !! "entryId" = Some (JStr eid) ∧
  result_object url eid !! "created" = None ∧
  dom (result_object url eid) = ({["url"; "entryId"]} : gset string).
Proof.
  unfold result_object. split; [|split; [|split]].
  - by rewrite lookup_insert_eq.
  - rewrite lookup_insert_ne by done. by rewrite lookup_insert_eq.
  - by rewrite !lookup_insert_ne.
  - by rewrite !dom_insert_L, dom_empty_L, union_empty_r_L.
Qed.

(** C3 (as amended). Every successful call of [addFile] returns a record
    with exactly the two fields [url] and [entryId]: [url] is the URL string
    of the blob stored by this call and [entryId] is a string.  The [created]
    flag is not part of the returned record. *)
Theorem addFile_result_shape identity args w o w' :
  addFile identity args w = (inr o, w') →
  let sid := storage_id (next_storage w) in
  ∃ eid,
    o = result_object (JStr (url_of sid)) eid ∧
    o !! "url" = Some (JStr (url_of sid)) ∧
    o !! "entryId" = Some (JStr eid) ∧
    o !! "created" = None ∧
    dom o = ({["url"; "entryId"]} : gset string) ∧
    blobs w' !! sid = Some (stored_blob args).
Proof.
  intros Hrun sid.
  destruct (deleteFile_authorized_dec identity) as [[orgId Ha]|Hna].
  - assert (Hb : blobs w' !! sid = Some (stored_blob args)).
    { replace w' with (addFile identity args w).2 by (by rewrite Hrun).
      rewrite (addFile_blobs _ _ _ _ Ha). by rewrite lookup_insert_eq. }
    rewrite (addFile_cases _ _ _ _ Ha) in Hrun. cbv zeta in Hrun. fold sid in Hrun.
    destruct (extractTextContent _ _ _ _) as [|text]; [done|].
    destruct (find _ _) as [existing|].
    + injection Hrun as <- _. exists (entryId existing).
      destruct (result_object_fields (JStr (url_of sid)) (entryId existing))
        as (?&?&?&?). done.
    + destruct (mapM _ _); [|done]. injection Hrun as <- _.
      exists (entry_id (next_entry w)).
      destruct (result_object_fields (JStr (url_of sid)) (entry_id (next_entry w)))
        as (?&?&?&?). done.
  - destruct (addFile_rejected identity args w Hna) as [msg Hr]. congruence.
Qed.

(** C9. Every Entry created by [addFile] has [namespace] and
    [metadata.uploadedBy] equal to the caller's authenticated organization
    identifier, and its [metadata.storageId] points to the blob stored in
    that same call (which holds the uploaded bytes).  A call creates at most
    one Entry, and exactly one when it succeeds on content new to the
    namespace. *)
Theorem addFile_entry_invariant identity orgId args w r w' :
  authorized identity orgId →
  addFile identity args w = (r, w') →
  let sid := storage_id (next_storage w) in
  ∃ created : list Entry,
    entries w' = entries w ++ created ∧
    (length created ≤ 1)%nat ∧
    (∀ o, r = inr o →
       find (same_content orgId (contentHashFromArrayBuffer (arg_bytes args)))
         (entries w) = None →
       length created = 1) ∧
    ∀ e, e ∈ created →
      namespace e = orgId ∧
      metadata e ≫= (.!! "uploadedBy") = Some (JStr orgId) ∧
      metadata e ≫= (.!! "storageId") = Some (JStr sid) ∧
      (∃ blob, blobs w' !! sid = Some blob ∧ blob_bytes blob = arg_bytes args).
Proof.
  intros Ha Hrun sid.
  assert (Hb : blobs w' !! sid = Some (stored_blob args)).
  { replace w' with (addFile identity args w).2 by (by rewrite Hrun).
    rewrite (addFile_blobs _ _ _ _ Ha). by rewrite lookup_insert_eq. }
  pose proof (addFile_entries identity orgId args w Ha) as Hent.
  cbv zeta in Hent. rewrite Hrun in Hent. cbn [fst snd] in Hent. fold sid in Hent.
  rewrite (addFile_cases _ _ _ _ Ha) in Hrun. cbv zeta in Hrun. fold sid in Hrun.
  destruct Hent as [Hsame|(Hnone & _ & Hnew)].
  - exists []. rewrite app_nil_r. split; [done|]. split; [cbn; lia|]. split.
    + intros o -> Hnone. rewrite Hnone in Hrun.
      destruct (extractTextContent _ _ _ _) as [|text]; [done|].
      destruct (mapM _ _); [|done]. injection Hrun as _ <-.
      cbn in Hsame. destruct (register_fields orgId
        (put_blob sid (stored_blob args) w)) as (_&_&He&_).
      rewrite He in Hsame. cbn in Hsame.
      apply (f_equal length) in Hsame. rewrite length_app in Hsame.
      cbn in Hsame. lia.
    + intros e He. by apply not_elem_of_nil in He.
  - exists [new_entry (entry_id (next_entry w)) sid orgId args].
    split; [done|]. split; [done|]. split; [done|].
    intros e ->%list_elem_of_singleton. cbn.
    rewrite upload_metadata_uploadedBy, upload_metadata_storageId.
    split; [done|]. split; [done|]. split; [done|]. by exists (stored_blob args).
Qed.

Lemma register_put_blob_journal orgId sid b w :
  journal (register orgId (put_blob sid b w)) =
    journal w ++ BlobStored sid :: ns_events orgId w.
Proof. rewrite register_journal. cbn. by rewrite <- app_assoc. Qed.

(** C1 (as amended). On a dedup hit (the namespace already holds an Entry
    with the same contentHash) [addFile] still writes the blob first: the
    Blob Store gains this call's blob under a fresh storageId, and no blob is
    deleted, while the Entry store and the chunk index are unchanged. *)
Theorem addFile_duplicate_still_stores identity orgId args w existing :
  authorized identity orgId →
  find (same_content orgId (contentHashFromArrayBuffer (arg_bytes args)))
    (entries w) = Some existing →
  let sid := storage_id (next_storage w) in
  let w' := (addFile identity args w).2 in
  blobs w' = <[sid := stored_blob args]> (blobs w) ∧
  entries w' = entries w ∧
  chunks w' = chunks w ∧
  (∃ rest, journal w' = journal w ++ BlobStored sid :: rest ∧
           ∀ s, BlobDeleted s ∉ rest) ∧
  (wf w → blobs w !! sid = None ∧ blobs w' ≠ blobs w).
Proof.
  intros Ha Hhit sid w'. split; [by apply (addFile_blobs _ orgId)|].
  assert (Hb : blobs w' = <[sid := stored_blob args]> (blobs w))
    by (by apply (addFile_blobs _ orgId)).
  subst w'. rewrite (addFile_cases _ _ _ _ Ha) in *. cbv zeta in *.
  rewrite Hhit in *. fold sid in Hb |- *.
  destruct (register_fields orgId (put_blob sid (stored_blob args) w))
    as (_&_&He&Hc&_).
  destruct (extractTextContent _ _ _ _) as [err|text]; cbn [snd] in *.
  - split; [done|]. split; [done|]. split.
    + exists []. split; [done|]. intros s Hs. by apply not_elem_of_nil in Hs.
    + intros Hwf. pose proof (wf_fresh_blob w Hwf) as Hf. fold sid in Hf.
      split; [done|]. intros Heq. rewrite Heq in Hb.
      apply (f_equal (.!! sid)) in Hb. rewrite lookup_insert_eq in Hb. congruence.
  - split; [exact He|]. split; [exact Hc|]. split.
    + exists (ns_events orgId w ++ [ConsoleDebug skip_message]). split.
      * cbn [log_effect journal]. rewrite register_put_blob_journal.
        by rewrite <- app_assoc.
      * intros s. rewrite elem_of_app, list_elem_of_singleton.
        unfold ns_events. case_decide; intros [Hs|Hs]; try done.
        -- by apply not_elem_of_nil in Hs.
        -- by apply list_elem_of_singleton in Hs.
    + intros Hwf. pose proof (wf_fresh_blob w Hwf) as Hf. fold sid in Hf.
      split; [done|]. intros Heq. rewrite Heq in Hb.
      apply (f_equal (.!! sid)) in Hb. rewrite lookup_insert_eq in Hb. congruence.
Qed.

(** C10. When [addFile] is called with content that duplicates an existing
    Entry of the namespace, the call succeeds with the existing entryId, logs
    the created=false message, and the url it returns is the URL of the blob
    stored during this very call: a storageId that did not exist before, that
    no Entry references (in particular not the existing one), and that is
    still in the Blob Store when the call returns (nothing is deleted). *)
Theorem addFile_duplicate_url identity orgId args w existing text :
  wf w →
  authorized identity orgId →
  find (same_content orgId (contentHashFromArrayBuffer (arg_bytes args)))
    (entries w) = Some existing →
  let sid := storage_id (next_storage w) in
  extractTextContent sid (arg_filename args) (arg_bytes args)
    (chosen_mime args) = inr text →
  ∃ w',
    addFile identity args w =
      (inr (result_object (JStr (url_of sid)) (entryId existing)), w') ∧
    blobs w !! sid = None ∧
    blobs w' !! sid = Some (stored_blob args) ∧
    existing ∈ entries w' ∧
    (∀ e, e ∈ entries w' → metadata e ≫= (.!! "storageId") ≠ Some (JStr sid)) ∧
    journal w' = journal w ++
      BlobStored sid :: ns_events orgId w ++ [ConsoleDebug skip_message].
Proof.
  intros Hwf Ha Hhit sid Htext.
  pose proof (addFile_blobs identity orgId args w Ha) as Hb.
  rewrite (addFile_cases _ _ _ _ Ha) in *. cbv zeta in *. fold sid in Hb |- *.
  rewrite Htext, Hhit in *. eexists. split; [done|]. cbn [snd] in Hb.
  destruct (register_fields orgId (put_blob sid (stored_blob args) w))
    as (_&_&He&_).
  split; [by apply wf_fresh_blob|].
  split; [by rewrite Hb, lookup_insert_eq|].
  assert (Hent : entries (log_effect (ConsoleDebug skip_message)
            (register orgId (put_blob sid (stored_blob args) w))) = entries w)
    by exact He.
  rewrite Hent. split.
  - apply find_some in Hhit as [Hin _]. by apply list_elem_of_In.
  - split; [intros e Hin; by apply wf_fresh_pointer|].
    cbn [log_effect journal]. rewrite register_put_blob_journal.
    by rewrite <- app_assoc.
Qed.

(** C5 (as amended). If ingestion fails after the blob has been stored (text
    extraction or the indexing call throws), [addFile] rethrows and performs
    no cleanup: the blob stored by the call stays in the Blob Store, and no
    Entry and no chunk is created. *)
Theorem addFile_failure_keeps_blob identity orgId args w err w' :
  authorized identity orgId →
  addFile identity args w = (inl err, w') →
  let sid := storage_id (next_storage w) in
  blobs w' = <[sid := stored_blob args]> (blobs w) ∧
  blobs w' !! sid = Some (stored_blob args) ∧
  entries w' = entries w ∧
  chunks w' = chunks w ∧
  ((extractTextContent sid (arg_filename args) (arg_bytes args)
      (chosen_mime args) = inl err ∧
    journal w' = journal w ++ [BlobStored sid]) ∨
   (∃ text,
      extractTextContent sid (arg_filename args) (arg_bytes args)
        (chosen_mime args) = inr text ∧
      mapM embed (defaultChunker text) = None ∧
      journal w' = journal w ++ BlobStored sid :: ns_events orgId w)).
Proof.
  intros Ha Hrun sid.
  assert (Hb : blobs w' = <[sid := stored_blob args]> (blobs w)).
  { replace w' with (addFile identity args w).2 by (by rewrite Hrun).
    by apply (addFile_blobs _ orgId). }
  split; [done|]. split; [by rewrite Hb, lookup_insert_eq|].
  rewrite (addFile_cases _ _ _ _ Ha) in Hrun. cbv zeta in Hrun. fold sid in Hrun.
  destruct (register_fields orgId (put_blob sid (stored_blob args) w))
    as (_&_&He&Hc&_).
  destruct (extractTextContent _ _ _ _) as [err'|text].
  - injection Hrun as -> <-. split; [done|]. split; [done|]. by left.
  - destruct (find _ _); [done|].
    destruct (mapM _ _) eqn:Em; [done|]. injection Hrun as _ <-.
    split; [done|]. split; [done|]. right. exists text.
    split; [done|]. split; [done|]. apply register_put_blob_journal.
Qed.

Lemma make_chunks_length eid ns texts vectors :
  mapM embed texts = Some vectors →
  length (make_chunks eid ns (zip texts vectors)) = length texts.
Proof.
  intros Hm. apply length_mapM in Hm. unfold make_chunks.
  rewrite length_imap, length_zip. lia.
Qed.

(** C6 (as amended). [addFile] does not look at the extracted text: whatever
    text the extractor returns (empty and all-whitespace text included), when
    the content hash is new to the namespace and every chunk embeds,
    [addFile] succeeds and commits an Entry with one chunk per piece the
    chunker yields for that text, hence a zero-chunk Entry when the chunker
    yields none. *)
Theorem addFile_no_text_check identity orgId args w text vectors :
  authorized identity orgId →
  let sid := storage_id (next_storage w) in
  let eid := entry_id (next_entry w) in
  extractTextContent sid (arg_filename args) (arg_bytes args)
    (chosen_mime args) = inr text →
  find (same_content orgId (contentHashFromArrayBuffer (arg_bytes args)))
    (entries w) = None →
  mapM embed (defaultChunker text) = Some vectors →
  ∃ w',
    addFile identity args w = (inr (result_object (JStr (url_of sid)) eid), w') ∧
    entries w' = entries w ++ [new_entry eid sid orgId args] ∧
    chunks w' = chunks w ++
      make_chunks eid orgId (zip (defaultChunker text) vectors) ∧
    length (chunks w') = (length (chunks w) + length (defaultChunker text))%nat ∧
    (defaultChunker text = [] → chunks w' = chunks w).
Proof.
  intros Ha sid eid Htext Hnew Hvec.
  rewrite (addFile_cases _ _ _ _ Ha). cbv zeta. fold sid eid.
  rewrite Htext, Hnew, Hvec. eexists. split; [done|].
  destruct (register_fields orgId (put_blob sid (stored_blob args) w))
    as (_&_&He&Hc&_).
  cbn [insert_entry insert_chunks log_effect entries chunks].
  rewrite He, Hc. cbn [entries chunks put_blob log_effect].
  split; [done|]. split; [done|]. split.
  - by rewrite length_app, (make_chunks_length _ _ _ _ Hvec).
  - intros Hnil. rewrite Hnil. cbn. by rewrite app_nil_r.
Qed.

Lemma find_none_filter {A} (f : A → bool) l :
  find f l = None → List.filter f l = [].
Proof.
  induction l as [|x l IH]; [done|]. cbn. by destruct (f x).
Qed.

Lemma find_app_new {A} (f : A → bool) l x :
  find f l = None → f x = true → find f (l ++ [x]) = Some x.
Proof.
  induction l as [|y l IH]; cbn.
  - by intros _ ->.
  - destruct (f y); [done|]. apply IH.
Qed.

Lemma same_content_new_entry eid sid orgId args :
  same_content orgId (contentHashFromArrayBuffer (arg_bytes args))
    (new_entry eid sid orgId args) = true.
Proof. unfold same_content. cbn. by rewrite !String.eqb_refl. Qed.

(** C2. For every byte sequence and namespace, two successful [addFile]
    calls with identical bytes under the same organization create exactly one
    Entry between them: the second call creates nothing, [rag.add] resolves
    created=false for it (the skip message is the last thing it logs), and it
    yields the entryId the first call produced. *)
Theorem addFile_twice_one_entry identity orgId args1 args2 w o1 w1 o2 w2 :
  authorized identity orgId →
  arg_bytes args2 = arg_bytes args1 →
  addFile identity args1 w = (inr o1, w1) →
  addFile identity args2 w1 = (inr o2, w2) →
  let hash := contentHashFromArrayBuffer (arg_bytes args1) in
  (∃ eid, o1 !! "entryId" = Some (JStr eid) ∧ o2 !! "entryId" = Some (JStr eid)) ∧
  entries w2 = entries w1 ∧
  chunks w2 = chunks w1 ∧
  (∃ earlier, journal w2 = earlier ++ [ConsoleDebug skip_message]) ∧
  (∃ created, entries w2 = entries w ++ created ∧ (length created ≤ 1)%nat) ∧
  (find (same_content orgId hash) (entries w) = None →
   length (List.filter (same_content orgId hash) (entries w2)) = 1%nat).
Proof.
  intros Ha Hbytes Hrun1 Hrun2 hash.
  rewrite (addFile_cases _ _ _ _ Ha) in Hrun1.
  rewrite (addFile_cases _ _ _ _ Ha) in Hrun2. cbv zeta in Hrun1, Hrun2.
  rewrite Hbytes in Hrun2. fold hash in Hrun1, Hrun2.
  set (sid1 := storage_id (next_storage w)) in *.
  set (sid2 := storage_id (next_storage w1)) in *.
  destruct (register_fields orgId (put_blob sid1 (stored_blob args1) w))
    as (_&_&He1&Hc1&_).
  destruct (register_fields orgId (put_blob sid2 (stored_blob args2) w1))
    as (_&_&He2&Hc2&_).
  destruct (extractTextContent sid1 _ _ _) as [|text1]; [done|].
  destruct (extractTextContent sid2 _ _ _) as [|text2]; [done|].
  assert (Hhit : ∃ existing,
            find (same_content orgId hash) (entries w1) = Some existing ∧
            o1 !! "entryId" = Some (JStr (entryId existing)) ∧
            ∃ created, entries w1 = entries w ++ created ∧
              (length created ≤ 1)%nat ∧
              (find (same_content orgId hash) (entries w) = None →
               List.filter (same_content orgId hash) (entries w1) = [existing])).
  { destruct (find (same_content orgId hash) (entries w)) as [existing|] eqn:Ef.
    - injection Hrun1 as <- <-. exists existing.
      cbn [log_effect entries]. rewrite He1. cbn [put_blob log_effect entries].
      split; [done|]. split; [apply result_object_fields|].
      exists []. rewrite app_nil_r. split; [done|]. split; [cbn; lia|done].
    - destruct (mapM embed (defaultChunker text1)); [|done].
      injection Hrun1 as <- <-.
      set (e := new_entry (entry_id (next_entry w)) sid1 orgId args1).
      exists e. cbn [insert_entry insert_chunks log_effect entries].
      rewrite He1. cbn [put_blob log_effect entries].
      split; [apply find_app_new; [done|apply same_content_new_entry]|].
      split; [apply result_object_fields|].
      exists [e]. split; [done|]. split; [done|]. intros _.
      rewrite List.filter_app, (find_none_filter _ _ Ef). cbn.
      unfold e, hash. by rewrite same_content_new_entry. }
  destruct Hhit as (existing & Hfind & Ho1 & created & Hent & Hlen & Hone).
  rewrite Hfind in Hrun2. injection Hrun2 as <- <-.
  cbn [log_effect entries chunks journal]. rewrite He2, Hc2.
  cbn [put_blob log_effect entries chunks].
  split; [exists (entryId existing); split; [done|apply result_object_fields]|].
  split; [done|]. split; [done|]. split; [by eexists|].
  split; [by exists created|].
  intros Hnone. by rewrite (Hone Hnone).
Qed.

End Properties.

(** ** The stores across whole calls *)

Section Lifecycle.
Context `{Collaborators}.

Lemma entry_id_inj n m : entry_id n = entry_id m → n = m.
Proof. unfold entry_id. cbn. intros [= Hp]. by apply (inj pretty). Qed.

Lemma storage_id_truthy n : str_truthy (storage_id n) = true.
Proof. reflexivity. Qed.

Lemma make_chunks_owner eid ns parts c :
  c ∈ make_chunks eid ns parts → chunk_entry c = eid ∧ chunk_namespace c = ns.
Proof.
  unfold make_chunks. intros [i Hi]%list_elem_of_lookup.
  rewrite list_lookup_imap in Hi. destruct (parts !! i); [|done].
  by injection Hi as <-.
Qed.

(** The stores after an authorized [addFile]: one more blob in any case, and
    either nothing else, or the one new Entry with its chunks. *)
Lemma addFile_fields identity orgId args w :
  authorized identity orgId →
  let sid := storage_id (next_storage w) in
  let eid := entry_id (next_entry w) in
  let w' := (addFile identity args w).2 in
  blobs w' = <[sid := stored_blob args]> (blobs w) ∧
  next_storage w' = S (next_storage w) ∧
  namespaces w ⊆ namespaces w' ∧
  namespaces w' ⊆ {[orgId]} ∪ namespaces w ∧
  ((entries w' = entries w ∧ chunks w' = chunks w ∧
    next_entry w' = next_entry w) ∨
   (find (same_content orgId (contentHashFromArrayBuffer (arg_bytes args)))
      (entries w) = None ∧
    (addFile identity args w).1 = inr (result_object (JStr (url_of sid)) eid) ∧
    orgId ∈ namespaces w' ∧
    entries w' = entries w ++ [new_entry eid sid orgId args] ∧
    (∃ cs, chunks w' = chunks w ++ cs ∧
           ∀ c, c ∈ cs → chunk_entry c = eid ∧ chunk_namespace c = orgId) ∧
    next_entry w' = S (next_entry w))).
Proof.
  intros Ha sid eid w'. subst w'.
  split; [by apply (addFile_blobs _ orgId)|].
  split; [by apply (addFile_next_storage _ orgId)|].
  rewrite (addFile_cases _ _ _ _ Ha). cbv zeta. fold sid eid.
  set (w1 := put_blob sid (stored_blob args) w).
  destruct (register_fields orgId w1) as (_&_&He&Hc&Hn).
  pose proof (register_namespaces orgId w1) as Hns.
  change (namespaces w1) with (namespaces w) in Hns.
  destruct (extractTextContent _ _ _ _) as [err|text]; cbn [fst snd].
  { split; [done|]. split; [apply union_subseteq_r|]. by left. }
  destruct (find _ _) as [existing|] eqn:Ef; cbn [fst snd].
  { cbn [log_effect namespaces entries chunks next_entry].
    rewrite Hns. split; [apply union_subseteq_r|]. split; [done|]. by left. }
  destruct (mapM _ _) as [vectors|]; cbn [fst snd].
  - cbn [insert_entry insert_chunks log_effect namespaces entries chunks
         next_entry].
    rewrite Hns, He, Hc, Hn. split; [apply union_subseteq_r|].
    split; [done|]. right. split; [done|]. split; [done|].
    split; [by apply elem_of_union_l, elem_of_singleton|]. split; [done|].
    split; [|done]. eexists. split; [done|]. apply make_chunks_owner.
  - rewrite Hns. split; [apply union_subseteq_r|]. split; [done|]. by left.
Qed.

(** The stores after the writes of a [deleteFile] call. *)
Lemma delete_steps_fields entry eid w :
  let w' := run_steps (delete_steps entry eid) w in
  blobs w' = match blob_pointer entry with
             | Some sid => delete sid (blobs w)
             | None => blobs w
             end ∧
  next_storage w' = next_storage w ∧
  namespaces w' = namespaces w ∧
  entries w' = filter (λ e, entryId e ≠ eid) (entries w) ∧
  chunks w' = filter (λ c, chunk_entry c ≠ eid) (chunks w) ∧
  next_entry w' = next_entry w.
Proof. unfold delete_steps. by destruct (blob_pointer entry). Qed.

Lemma same_id_same_entry (l : list Entry) e1 e2 :
  NoDup (entryId <$> l) → e1 ∈ l → e2 ∈ l → entryId e1 = entryId e2 → e1 = e2.
Proof.
  induction l as [|x l IH]; [by intros _ ?%not_elem_of_nil|].
  rewrite fmap_cons, NoDup_cons, !elem_of_cons.
  intros [Hx Hnd] [->|H1] [->|H2] Hid; [done| | |by apply IH].
  - destruct Hx. rewrite Hid. by apply list_elem_of_fmap_2.
  - destruct Hx. rewrite <- Hid. by apply list_elem_of_fmap_2.
Qed.

Lemma consistent_empty : consistent empty_world.
Proof.
  split; [apply wf_empty|]. cbn.
  split; [by intros e ?%not_elem_of_nil|]. split; [constructor|].
  split; [by intros e ?%not_elem_of_nil|].
  split; [by intros e1 e2 ?%not_elem_of_nil|].
  by intros c ?%not_elem_of_nil.
Qed.

(** An authorized or rejected [addFile], failed or not, keeps the stores
    consistent. *)
Lemma addFile_consistent identity args w :
  consistent w → consistent (addFile identity args w).2.
Proof.
  intros Hc.
  destruct (deleteFile_authorized_dec identity) as [[orgId Ha]|Hna];
    [|by destruct (addFile_rejected identity args w Hna) as [msg ->]].
  pose proof (addFile_wf identity args w (proj1 Hc)) as Hwf'.
  destruct Hc as (Hwf & Hiss & Hnd & Hown & Hptr & Hch).
  destruct (addFile_fields identity orgId args w Ha)
    as (Hb & Hs & Hsub & _ & Hcase).
  set (sid := storage_id (next_storage w)) in *.
  set (w' := (addFile identity args w).2) in *.
  assert (Hold : ∀ e, e ∈ entries w →
            metadata e ≫= (.!! "uploadedBy") = Some (JStr (namespace e)) ∧
            namespace e ∈ namespaces w' ∧
            ∃ p, blob_pointer e = Some p ∧ is_Some (blobs w' !! p)).
  { intros e He. destruct (Hown e He) as (Hu & Hn & p & Hp & Hsome).
    split; [done|]. split; [by apply Hsub|]. exists p. split; [done|].
    rewrite Hb, lookup_insert. by case_decide. }
  split; [done|].
  destruct Hcase as [(He & Hck & Hn)|(_ & _ & Horg & He & (cs & Hck & Hcs) & Hn)];
    rewrite He, Hck, Hn.
  { done. }
  set (ne := new_entry (entry_id (next_entry w)) sid orgId args).
  assert (Hfresh : ∀ e, e ∈ entries w → entryId e ≠ entryId ne).
  { intros e Hin Heq. destruct (Hiss e Hin) as (k & Hk & Hid).
    rewrite Hid in Heq. apply entry_id_inj in Heq. lia. }
  assert (Hne_ptr : blob_pointer ne = Some sid).
  { unfold blob_pointer, ne. cbn. by rewrite upload_metadata_storageId. }
  split; [|split; [|split; [|split]]].
  - intros e [Hin| ->%list_elem_of_singleton]%elem_of_app.
    + destruct (Hiss e Hin) as (k & Hk & ->). exists k. split; [lia|done].
    + exists (next_entry w). split; [lia|done].
  - rewrite fmap_app. apply NoDup_app. split; [done|]. split.
    + intros x [e [-> Hin]]%list_elem_of_fmap [= Heq]%list_elem_of_singleton.
      by apply (Hfresh e).
    + apply NoDup_singleton.
  - intros e [Hin| ->%list_elem_of_singleton]%elem_of_app; [by apply Hold|].
    split; [cbn; by rewrite upload_metadata_uploadedBy|]. split; [done|].
    exists sid. split; [done|]. rewrite Hb, lookup_insert_eq. by eexists.
  - assert (Hno : ∀ e, e ∈ entries w → blob_pointer e ≠ Some sid).
    { intros e Hin Hp. apply (wf_fresh_pointer w e Hwf Hin).
      unfold blob_pointer in Hp.
      destruct (metadata e ≫= (.!! "storageId")) as [[|p]|]; try done.
      destruct (str_truthy p); [|done]. by injection Hp as ->. }
    intros e1 e2 [H1| ->%list_elem_of_singleton]%elem_of_app
                 [H2| ->%list_elem_of_singleton]%elem_of_app Hp.
    + by apply Hptr.
    + rewrite Hne_ptr in Hp. by destruct (Hno e1).
    + rewrite Hne_ptr in Hp. by destruct (Hno e2).
    + done.
  - intros c [Hin|Hin]%elem_of_app.
    + destruct (Hch c Hin) as (e & He' & Hid & Hns). exists e.
      split; [|done]. apply elem_of_app. by left.
    + destruct (Hcs c Hin) as [Hid Hns]. exists ne.
      split; [apply elem_of_app; right; by apply list_elem_of_singleton|].
      by split.
Qed.

(** So does [deleteFile]. *)
Lemma deleteFile_consistent identity eid w :
  consistent w → consistent (deleteFile identity eid w).2.
Proof.
  intros Hc. destruct (deleteFile identity eid w) as [[err|[]] w'] eqn:E.
  { cbn. by rewrite (deleteFile_failure_frame _ _ _ _ _ E). }
  pose proof (deleteFile_wf identity eid w (proj1 Hc)) as Hwf'.
  rewrite E in Hwf'. cbn [snd] in *.
  destruct (deleteFile_success _ _ _ _ E) as (entry & Hget & ->).
  destruct (getEntry_found _ _ _ Hget) as [Hin Hid].
  destruct Hc as (Hwf & Hiss & Hnd & Hown & Hptr & Hch).
  destruct (delete_steps_fields entry eid w) as (Hb & _ & Hns & He & Hck & Hn).
  split; [done|]. rewrite He, Hck, Hn, Hns.
  split; [|split; [|split; [|split]]].
  - intros e [_ He']%list_elem_of_filter. by apply Hiss.
  - eapply sublist_NoDup; [exact Hnd|]. apply fmap_sublist, sublist_filter.
  - intros e [Hne He']%list_elem_of_filter.
    destruct (Hown e He') as (Hu & Hreg & p & Hp & Hsome).
    split; [done|]. split; [done|]. exists p. split; [done|]. rewrite Hb.
    destruct (blob_pointer entry) as [q|] eqn:Hq; [|done].
    rewrite lookup_delete_ne; [done|]. intros ->. apply Hne.
    rewrite <- Hid. apply Hptr; [done|done|congruence].
  - intros e1 e2 [_ H1]%list_elem_of_filter [_ H2]%list_elem_of_filter.
    by apply Hptr.
  - intros c [Hne Hc]%list_elem_of_filter.
    destruct (Hch c Hc) as (e & He' & Hide & Hnse). exists e.
    split; [|done]. apply list_elem_of_filter. split; [congruence|done].
Qed.

Lemma reachable_consistent w : reachable w → consistent w.
Proof.
  induction 1 as [|identity args w _ IH|identity eid w _ IH].
  - apply consistent_empty.
  - by apply addFile_consistent.
  - by apply deleteFile_consistent.
Qed.

(** *** Helper facts about lookups by id *)

Lemma authorized_unique identity o1 o2 :
  authorized identity o1 → authorized identity o2 → o1 = o2.
Proof. intros [-> _] [[= ->] _]. done. Qed.

Lemma find_by_id (l : list Entry) e :
  NoDup (entryId <$> l) → e ∈ l →
  find (λ x, String.eqb (entryId x) (entryId e)) l = Some e.
Proof.
  intros Hnd Hin.
  destruct (find _ l) as [x|] eqn:Ef.
  - apply find_some in Ef as [Hx Heq]. apply list_elem_of_In in Hx.
    apply String.eqb_eq in Heq. f_equal. by apply (same_id_same_entry l).
  - apply list_elem_of_In in Hin.
    pose proof (find_none _ _ Ef e Hin) as Hneq. cbn in Hneq.
    by rewrite String.eqb_refl in Hneq.
Qed.

Lemma find_after_filter (l : list Entry) eid :
  find (λ x, String.eqb (entryId x) eid) (filter (λ e, entryId e ≠ eid) l) = None.
Proof.
  destruct (find _ _) as [x|] eqn:Ef; [|done].
  apply find_some in Ef as [Hx Heq]. apply list_elem_of_In in Hx.
  apply list_elem_of_filter in Hx as [Hne _]. by apply String.eqb_eq in Heq.
Qed.

Lemma filter_keep_all {A} (P : A → Prop) `{!∀ x, Decision (P x)} (l : list A) :
  (∀ x, x ∈ l → P x) → filter P l = l.
Proof.
  induction l as [|x l IH]; [done|]. intros Hall.
  rewrite filter_cons_True by (apply Hall; left).
  f_equal. apply IH. intros y Hy. apply Hall. by right.
Qed.

Lemma filter_drop_all {A} (P : A → Prop) `{!∀ x, Decision (P x)} (l : list A) :
  (∀ x, x ∈ l → ¬ P x) → filter P l = [].
Proof.
  induction l as [|x l IH]; [done|]. intros Hall.
  rewrite filter_cons_False by (apply Hall; left).
  apply IH. intros y Hy. apply Hall. by right.
Qed.

(** What a [deleteFile] call that returns normally has checked. *)
Lemma deleteFile_success_checks identity eid w w' :
  deleteFile identity eid w = (inr (), w') →
  ∃ orgId entry,
    authorized identity orgId ∧ orgId ∈ namespaces w ∧
    (rag_getEntry eid w).1 = inr (Some entry) ∧
    metadata entry ≫= (.!! "uploadedBy") = Some (JStr orgId) ∧
    w' = run_steps (delete_steps entry eid) w.
Proof.
  intros Hrun.
  destruct (deleteFile_authorized_dec identity) as [[orgId Ha]|Hna].
  - rewrite (deleteFile_cases _ _ _ _ Ha) in Hrun.
    destruct (decide _) as [Hns|]; [|done].
    unfold rag_getEntry. cbn [fst].
    destruct (find _ _) as [entry|]; [|done].
    case_bool_decide as Hu; [done|]. injection Hrun as <-.
    exists orgId, entry. split; [done|]. split; [done|]. split; [done|].
    by split.
  - destruct (deleteFile_rejected identity eid w Hna) as [msg Hr]. congruence.
Qed.

(** The owner's [deleteFile] goes through. *)
Lemma deleteFile_owner_succeeds identity orgId e w :
  authorized identity orgId → orgId ∈ namespaces w →
  NoDup (entryId <$> entries w) → e ∈ entries w →
  metadata e ≫= (.!! "uploadedBy") = Some (JStr orgId) →
  deleteFile identity (entryId e) w =
    (inr (), run_steps (delete_steps e (entryId e)) w).
Proof.
  intros Ha Hns Hnd Hin Hu. rewrite (deleteFile_cases _ _ _ _ Ha).
  rewrite decide_True by done. rewrite (find_by_id _ _ Hnd Hin).
  by rewrite bool_decide_eq_false_2 by (by intros ?).
Qed.

(** The outcome of an [addFile] that created an Entry. *)
Lemma addFile_created identity orgId args w o w1 :
  authorized identity orgId →
  find (same_content orgId (contentHashFromArrayBuffer (arg_bytes args)))
    (entries w) = None →
  addFile identity args w = (inr o, w1) →
  let sid := storage_id (next_storage w) in
  let eid := entry_id (next_entry w) in
  o = result_object (JStr (url_of sid)) eid ∧
  blobs w1 = <[sid := stored_blob args]> (blobs w) ∧
  namespaces w1 = {[orgId]} ∪ namespaces w ∧
  entries w1 = entries w ++ [new_entry eid sid orgId args] ∧
  ∃ cs, chunks w1 = chunks w ++ cs ∧
        ∀ c, c ∈ cs → chunk_entry c = eid ∧ chunk_namespace c = orgId.
Proof.
  intros Ha Hnone Hrun sid eid.
  rewrite (addFile_cases _ _ _ _ Ha) in Hrun. cbv zeta in Hrun.
  fold sid eid in Hrun. rewrite Hnone in Hrun.
  set (w0 := put_blob sid (stored_blob args) w) in *.
  destruct (register_fields orgId w0) as (Hb&_&He&Hc&_).
  pose proof (register_namespaces orgId w0) as Hns.
  destruct (extractTextContent _ _ _ _) as [|text]; [done|].
  destruct (mapM _ _) as [vectors|]; [|done]. injection Hrun as <- <-.
  cbn [insert_entry insert_chunks log_effect blobs namespaces entries chunks].
  rewrite Hb, Hns, He, Hc. split; [done|]. split; [done|]. split; [done|].
  split; [done|]. eexists. split; [done|]. apply make_chunks_owner.
Qed.

(** The outcome of an [addFile] that hit an existing Entry. *)
Lemma addFile_hit identity orgId args w existing o w1 :
  authorized identity orgId →
  find (same_content orgId (contentHashFromArrayBuffer (arg_bytes args)))
    (entries w) = Some existing →
  addFile identity args w = (inr o, w1) →
  let sid := storage_id (next_storage w) in
  o = result_object (JStr (url_of sid)) (entryId existing) ∧
  blobs w1 = <[sid := stored_blob args]> (blobs w) ∧
  namespaces w1 = {[orgId]} ∪ namespaces w ∧
  entries w1 = entries w ∧
  chunks w1 = chunks w.
Proof.
  intros Ha Hhit Hrun sid.
  rewrite (addFile_cases _ _ _ _ Ha) in Hrun. cbv zeta in Hrun.
  fold sid in Hrun. rewrite Hhit in Hrun.
  set (w0 := put_blob sid (stored_blob args) w) in *.
  destruct (register_fields orgId w0) as (Hb&_&He&Hc&_).
  pose proof (register_namespaces orgId w0) as Hns.
  destruct (extractTextContent _ _ _ _) as [|text]; [done|].
  injection Hrun as <- <-.
  cbn [log_effect blobs namespaces entries chunks].
  by rewrite Hb, Hns, He, Hc.
Qed.

Lemma same_content_namespace ns hash e :
  same_content ns hash e = true → namespace e = ns.
Proof.
  unfold same_content. intros [Hn _]%andb_true_iff. by apply String.eqb_eq.
Qed.

Lemma blob_pointer_storageId e sid :
  blob_pointer e = Some sid →
  metadata e ≫= (.!! "storageId") = Some (JStr sid).
Proof.
  unfold blob_pointer.
  destruct (metadata e ≫= (.!! "storageId")) as [[|p]|]; try done.
  destruct (str_truthy p); [|done]. by intros [= ->].
Qed.

(** *** Further properties of [addFile] and [deleteFile] *)


(** X2. [deleteFile] returns normally exactly when the caller carries a
    usable organization claim, that organization's namespace is registered,
    the Entry exists, and the Entry's [metadata.uploadedBy] is that
    organization. *)
Theorem deleteFile_succeeds_iff identity eid w :
  (deleteFile identity eid w).1 = inr () ↔
  ∃ orgId entry,
    authorized identity orgId ∧ orgId ∈ namespaces w ∧
    (rag_getEntry eid w).1 = inr (Some entry) ∧
    metadata entry ≫= (.!! "uploadedBy") = Some (JStr orgId).
Proof.
  split.
  - intros Hok. destruct (deleteFile identity eid w) as [r w'] eqn:E.
    cbn in Hok. subst r.
    destruct (deleteFile_success_checks _ _ _ _ E)
      as (orgId & entry & Ha & Hns & Hget & Hu & _).
    by exists orgId, entry.
  - intros (orgId & entry & Ha & Hns & Hget & Hu).
    rewrite (deleteFile_cases _ _ _ _ Ha). rewrite decide_True by done.
    unfold rag_getEntry in Hget. cbn [fst] in Hget. injection Hget as ->.
    by rewrite bool_decide_eq_false_2 by (by intros ?).
Qed.

(** X3. After a successful [deleteFile] the Entry can no longer be loaded,
    no chunk refers to it, and the blob its [metadata.storageId] named is
    gone; every other Entry, every chunk of another Entry, every other blob
    and the namespace registry are exactly as before. *)
Theorem deleteFile_removes_only_target identity eid w w' :
  deleteFile identity eid w = (inr (), w') →
  (rag_getEntry eid w').1 = inr None ∧
  (∀ e, e ∈ entries w' ↔ e ∈ entries w ∧ entryId e ≠ eid) ∧
  (∀ c, c ∈ chunks w' ↔ c ∈ chunks w ∧ chunk_entry c ≠ eid) ∧
  namespaces w' = namespaces w ∧
  ∃ entry, (rag_getEntry eid w).1 = inr (Some entry) ∧
    match blob_pointer entry with
    | Some sid =>
      blobs w' !! sid = None ∧
      ∀ other, other ≠ sid → blobs w' !! other = blobs w !! other
    | None => blobs w' = blobs w
    end.
Proof.
  intros Hrun. destruct (deleteFile_success _ _ _ _ Hrun) as (entry & Hget & ->).
  destruct (delete_steps_fields entry eid w) as (Hb & _ & Hns & He & Hc & _).
  split; [|split; [|split; [|split]]].
  - unfold rag_getEntry. cbn [fst]. rewrite He. by rewrite find_after_filter.
  - intros e. rewrite He, list_elem_of_filter. tauto.
  - intros c. rewrite Hc, list_elem_of_filter. tauto.
  - done.
  - exists entry. split; [done|]. rewrite Hb.
    destruct (blob_pointer entry) as [sid|]; [|done]. split.
    + apply lookup_delete_eq.
    + intros other Hne. by apply lookup_delete_ne.
Qed.

(** X4. Deleting the same Entry a second time fails with [NOT_FOUND] and
    changes nothing. *)
Theorem deleteFile_twice_not_found identity eid w w' :
  deleteFile identity eid w = (inr (), w') →
  deleteFile identity eid w' =
    (inl (ConvexError NOT_FOUND "Entry not found"), w').
Proof.
  intros Hrun.
  destruct (deleteFile_success_checks _ _ _ _ Hrun)
    as (orgId & entry & Ha & Hns & _ & _ & ->).
  destruct (delete_steps_fields entry eid w) as (_ & _ & Hns' & He & _).
  rewrite (deleteFile_cases _ _ _ _ Ha). rewrite Hns', decide_True by done.
  by rewrite He, find_after_filter.
Qed.

(** X5. An Entry whose metadata is missing, or whose [metadata.uploadedBy] is
    missing or not a string, cannot be deleted through [deleteFile] by any
    caller: every call fails with [UNAUTHORIZED] and changes nothing. *)
Theorem deleteFile_unowned_entry_stays identity eid w entry :
  (rag_getEntry eid w).1 = inr (Some entry) →
  (∀ owner, metadata entry ≫= (.!! "uploadedBy") ≠ Some (JStr owner)) →
  ∃ msg, deleteFile identity eid w = (inl (ConvexError UNAUTHORIZED msg), w).
Proof.
  intros Hget Hno.
  destruct (deleteFile_authorized_dec identity) as [[orgId Ha]|Hna];
    [|by apply deleteFile_rejected].
  rewrite (deleteFile_cases _ _ _ _ Ha).
  unfold rag_getEntry in Hget. cbn [fst] in Hget. injection Hget as ->.
  destruct (decide _); [|by eexists].
  rewrite bool_decide_eq_true_2 by apply Hno. by eexists.
Qed.

(** X6. The Entry a successful [addFile] creates for new content is keyed
    and titled by the filename, carries the hash of the uploaded bytes, and
    its metadata has exactly the four fields [storageId], [uploadedBy],
    [filename] and [category], where [category] is [null] when the argument
    is absent and the given string otherwise (the empty string included). *)
Theorem addFile_created_entry_fields identity orgId args w o w' :
  authorized identity orgId →
  find (same_content orgId (contentHashFromArrayBuffer (arg_bytes args)))
    (entries w) = None →
  addFile identity args w = (inr o, w') →
  ∃ e m,
    entries w' = entries w ++ [e] ∧
    o !! "entryId" = Some (JStr (entryId e)) ∧
    key e = arg_filename args ∧
    title e = arg_filename args ∧
    contentHash e = contentHashFromArrayBuffer (arg_bytes args) ∧
    metadata e = Some m ∧
    dom m = ({["storageId"; "uploadedBy"; "filename"; "category"]} : gset string) ∧
    m !! "filename" = Some (JStr (arg_filename args)) ∧
    m !! "category" = Some (match arg_category args with
                            | Some c => JStr c
                            | None => JNull
                            end).
Proof.
  intros Ha Hnone Hrun.
  destruct (addFile_created _ _ _ _ _ _ Ha Hnone Hrun) as (-> & _ & _ & He & _).
  eexists _, _. split; [exact He|]. split; [apply result_object_fields|].
  cbn. split; [done|]. split; [done|]. split; [done|]. split; [done|].
  unfold upload_metadata. split; [|split].
  - rewrite !dom_insert_L, dom_empty_L, union_empty_r_L.
    by rewrite <- !(assoc_L (∪)).
  - do 2 (rewrite lookup_insert_ne by done). by rewrite lookup_insert_eq.
  - do 3 (rewrite lookup_insert_ne by done). rewrite lookup_insert_eq.
    by destruct (arg_category args).
Qed.

(** X7. [addFile] only ever adds: whoever calls it and however it ends,
    every Entry, chunk, blob and namespace that was there before is still
    there, unchanged and in the same order. *)
Theorem addFile_only_adds identity args w :
  wf w →
  let w' := (addFile identity args w).2 in
  entries w `prefix_of` entries w' ∧
  chunks w `prefix_of` chunks w' ∧
  blobs w ⊆ blobs w' ∧
  namespaces w ⊆ namespaces w'.
Proof.
  intros Hwf w'. subst w'.
  destruct (deleteFile_authorized_dec identity) as [[orgId Ha]|Hna];
    [|by destruct (addFile_rejected identity args w Hna) as [msg ->]].
  destruct (addFile_fields identity orgId args w Ha)
    as (Hb & _ & Hns & _ & Hcase).
  assert (Hblobs : blobs w ⊆ blobs (addFile identity args w).2).
  { rewrite Hb. apply insert_subseteq. by apply wf_fresh_blob. }
  destruct Hcase as [(-> & -> & _)|(_ & _ & _ & -> & (cs & -> & _) & _)].
  - done.
  - split; [by apply prefix_app_r|]. split; [by apply prefix_app_r|done].
Qed.

(** X8. Between any two handler calls, however many uploads and deletions
    came before, the stores are consistent: Entry ids are pairwise distinct;
    every Entry's [metadata.uploadedBy] is its own namespace and that
    namespace is registered; its [metadata.storageId] names a blob that
    exists and that no other Entry points to; and every chunk belongs to an
    existing Entry of the same namespace. *)
Theorem reachable_stores_consistent w :
  reachable w →
  NoDup (entryId <$> entries w) ∧
  (∀ e, e ∈ entries w →
     metadata e ≫= (.!! "uploadedBy") = Some (JStr (namespace e)) ∧
     namespace e ∈ namespaces w ∧
     ∃ sid, metadata e ≫= (.!! "storageId") = Some (JStr sid) ∧
            is_Some (blobs w !! sid) ∧
            ∀ e', e' ∈ entries w →
                  metadata e' ≫= (.!! "storageId") = Some (JStr sid) → e' = e) ∧
  (∀ c, c ∈ chunks w →
     ∃ e, e ∈ entries w ∧ entryId e = chunk_entry c ∧
          namespace e = chunk_namespace c).
Proof.
  intros Hr. destruct (reachable_consistent w Hr)
    as (_ & _ & Hnd & Hown & Hptr & Hch).
  split; [done|]. split; [|done].
  intros e He. destruct (Hown e He) as (Hu & Hns & sid & Hp & Hsome).
  split; [done|]. split; [done|]. exists sid.
  split; [by apply blob_pointer_storageId|]. split; [done|].
  intros e' He' Hs'. apply (same_id_same_entry (entries w)); [done..|].
  apply Hptr; [done..|]. rewrite Hp.
  destruct (Hown e' He') as (_ & _ & sid' & Hp' & _).
  rewrite Hp'. apply blob_pointer_storageId in Hp'. congruence.
Qed.

(** X9. Uploading new content and then deleting the returned Entry, by the
    same caller, restores the Entry store, the chunk index and the Blob
    Store to what they were before the upload. *)
Theorem upload_then_delete_restores identity orgId args w o w1 :
  consistent w →
  authorized identity orgId →
  find (same_content orgId (contentHashFromArrayBuffer (arg_bytes args)))
    (entries w) = None →
  addFile identity args w = (inr o, w1) →
  ∃ eid w2,
    o !! "entryId" = Some (JStr eid) ∧
    deleteFile identity eid w1 = (inr (), w2) ∧
    entries w2 = entries w ∧
    chunks w2 = chunks w ∧
    blobs w2 = blobs w.
Proof.
  intros Hc Ha Hnone Hrun.
  pose proof (addFile_consistent identity args w Hc) as Hc1.
  rewrite Hrun in Hc1. cbn [snd] in Hc1.
  destruct (addFile_created _ _ _ _ _ _ Ha Hnone Hrun)
    as (-> & Hb & Hns & He & cs & Hck & Hcs).
  set (sid := storage_id (next_storage w)) in *.
  set (eid := entry_id (next_entry w)) in *.
  set (ne := new_entry eid sid orgId args) in *.
  destruct Hc as (Hwf & Hiss & _ & _ & _ & Hch).
  assert (Hfresh : ∀ e, e ∈ entries w → entryId e ≠ eid).
  { intros e Hin Heq. destruct (Hiss e Hin) as (k & Hk & Hid).
    rewrite Hid in Heq. apply entry_id_inj in Heq. lia. }
  exists eid, (run_steps (delete_steps ne eid) w1).
  split; [apply result_object_fields|]. split.
  - apply (deleteFile_owner_succeeds identity orgId ne w1 Ha).
    + rewrite Hns. by apply elem_of_union_l, elem_of_singleton.
    + apply Hc1.
    + rewrite He. apply elem_of_app. right. by apply list_elem_of_singleton.
    + cbn. by rewrite upload_metadata_uploadedBy.
  - destruct (delete_steps_fields ne eid w1) as (Hb2 & _ & _ & He2 & Hc2 & _).
    rewrite He2, Hc2, Hb2, He, Hck, Hb, !filter_app.
    split; [|split].
    + rewrite (filter_keep_all _ (entries w)) by done.
      rewrite (filter_drop_all _ [ne]); [apply app_nil_r|].
      intros e ->%list_elem_of_singleton Hne. by apply Hne.
    + rewrite (filter_keep_all _ (chunks w)).
      * rewrite (filter_drop_all _ cs); [apply app_nil_r|].
        intros c Hin Hne. by destruct (Hcs c Hin).
      * intros c Hin. destruct (Hch c Hin) as (e & He' & <- & _).
        by apply Hfresh.
    + replace (blob_pointer ne) with (Some sid)
        by (unfold blob_pointer, ne; cbn; by rewrite upload_metadata_storageId).
      apply delete_insert_id. by apply wf_fresh_blob.
Qed.

(** X10. Uploading content the namespace already holds and then deleting
    the returned Entry leaves the duplicate's blob behind: the Entry is gone,
    the blob stored by the duplicate upload is still in the Blob Store, and
    no remaining Entry points to it. *)
Theorem duplicate_then_delete_leaves_blob identity orgId args w existing o w1 :
  consistent w →
  authorized identity orgId →
  find (same_content orgId (contentHashFromArrayBuffer (arg_bytes args)))
    (entries w) = Some existing →
  addFile identity args w = (inr o, w1) →
  let sid := storage_id (next_storage w) in
  ∃ w2,
    o !! "entryId" = Some (JStr (entryId existing)) ∧
    deleteFile identity (entryId existing) w1 = (inr (), w2) ∧
    (rag_getEntry (entryId existing) w2).1 = inr None ∧
    blobs w2 !! sid = Some (stored_blob args) ∧
    ∀ e, e ∈ entries w2 → metadata e ≫= (.!! "storageId") ≠ Some (JStr sid).
Proof.
  intros Hc Ha Hhit Hrun sid.
  destruct (addFile_hit _ _ _ _ _ _ _ Ha Hhit Hrun) as (-> & Hb & Hns & He & _).
  fold sid in Hb.
  destruct Hc as (Hwf & _ & Hnd & Hown & _ & _).
  pose proof Hhit as Hfound. apply find_some in Hfound as [Hin Hsame].
  apply list_elem_of_In in Hin. apply same_content_namespace in Hsame.
  destruct (Hown existing Hin) as (Hu & _ & p & Hp & _).
  assert (Hpsid : p ≠ sid).
  { intros ->. apply (wf_fresh_pointer w existing Hwf Hin).
    by apply blob_pointer_storageId. }
  exists (run_steps (delete_steps existing (entryId existing)) w1).
  destruct (delete_steps_fields existing (entryId existing) w1)
    as (Hb2 & _ & _ & He2 & _).
  split; [apply result_object_fields|]. split; [|split; [|split]].
  - apply (deleteFile_owner_succeeds identity orgId existing w1 Ha).
    + rewrite Hns. by apply elem_of_union_l, elem_of_singleton.
    + by rewrite He.
    + by rewrite He.
    + by rewrite Hu, Hsame.
  - unfold rag_getEntry. cbn [fst]. by rewrite He2, find_after_filter.
  - rewrite Hb2, Hp, Hb. rewrite lookup_delete_ne by done.
    by rewrite lookup_insert_eq.
  - intros e. rewrite He2, He. intros [_ He']%list_elem_of_filter.
    by apply wf_fresh_pointer.
Qed.

(** X11. Whatever [addFile] returns to a caller, that caller can delete: a
    following [deleteFile] by the same caller with the returned [entryId]
    returns normally, whether the upload created the Entry or hit an existing
    one of the caller's namespace. *)
Theorem uploader_can_delete identity orgId args w o w1 :
  consistent w →
  authorized identity orgId →
  addFile identity args w = (inr o, w1) →
  ∃ eid, o !! "entryId" = Some (JStr eid) ∧
         (deleteFile identity eid w1).1 = inr ().
Proof.
  intros Hc Ha Hrun.
  pose proof (addFile_consistent identity args w Hc) as Hc1.
  rewrite Hrun in Hc1. cbn [snd] in Hc1.
  destruct Hc1 as (_ & _ & Hnd1 & Hown1 & _ & _).
  destruct (find (same_content orgId (contentHashFromArrayBuffer (arg_bytes args)))
              (entries w)) as [existing|] eqn:Ef.
  - destruct (addFile_hit _ _ _ _ _ _ _ Ha Ef Hrun) as (-> & _ & Hns & He & _).
    apply find_some in Ef as [Hin Hsame].
    apply list_elem_of_In in Hin. apply same_content_namespace in Hsame.
    rewrite <- He in Hin. destruct (Hown1 existing Hin) as (Hu & _).
    exists (entryId existing). split; [apply result_object_fields|].
    rewrite (deleteFile_owner_succeeds identity orgId existing w1 Ha); [done| |done..|].
    + rewrite Hns. by apply elem_of_union_l, elem_of_singleton.
    + by rewrite Hu, Hsame.
  - destruct (addFile_created _ _ _ _ _ _ Ha Ef Hrun) as (-> & _ & Hns & He & _).
    set (ne := new_entry (entry_id (next_entry w))
                 (storage_id (next_storage w)) orgId args) in *.
    exists (entryId ne). split; [apply result_object_fields|].
    rewrite (deleteFile_owner_succeeds identity orgId ne w1 Ha); [done| |done| |].
    + rewrite Hns. by apply elem_of_union_l, elem_of_singleton.
    + rewrite He. apply elem_of_app. right. by apply list_elem_of_singleton.
    + cbn. by rewrite upload_metadata_uploadedBy.
Qed.

(** X12. A successful [deleteFile] stays inside the caller's namespace: the
    Entry it removes belongs to the caller's organization, and every Entry of
    another namespace, with its chunks and its blob, is left as it was. *)
Theorem deleteFile_stays_in_namespace identity orgId eid w w' :
  consistent w →
  authorized identity orgId →
  deleteFile identity eid w = (inr (), w') →
  (∃ entry, (rag_getEntry eid w).1 = inr (Some entry) ∧ namespace entry = orgId) ∧
  (∀ e, e ∈ entries w → namespace e ≠ orgId →
     e ∈ entries w' ∧
     ∀ sid, metadata e ≫= (.!! "storageId") = Some (JStr sid) →
            blobs w' !! sid = blobs w !! sid) ∧
  (∀ c, c ∈ chunks w → chunk_namespace c ≠ orgId → c ∈ chunks w').
Proof.
  intros Hc Ha Hrun.
  destruct (deleteFile_success_checks _ _ _ _ Hrun)
    as (orgId' & entry & Ha' & _ & Hget & Hu & ->).
  rewrite <- (authorized_unique _ _ _ Ha Ha') in Hu. clear orgId' Ha'.
  destruct (getEntry_found _ _ _ Hget) as [Hin Hid].
  destruct Hc as (_ & _ & Hnd & Hown & Hptr & Hch).
  destruct (Hown entry Hin) as (Hu' & _ & p & Hp & _).
  assert (Hns : namespace entry = orgId) by congruence.
  destruct (delete_steps_fields entry eid w) as (Hb & _ & _ & He & Hck & _).
  assert (Hother : ∀ e, e ∈ entries w → namespace e ≠ orgId → entryId e ≠ eid).
  { intros e He' Hne Heq. apply Hne. rewrite <- Hns. f_equal.
    apply (same_id_same_entry (entries w)); [done..|congruence]. }
  split; [by exists entry|]. split.
  - intros e He' Hne. split.
    + rewrite He. apply list_elem_of_filter. split; [by apply Hother|done].
    + intros sid Hs. rewrite Hb, Hp. apply lookup_delete_ne. intros ->.
      apply (Hother e He' Hne). rewrite <- Hid. apply Hptr; [done..|].
      rewrite Hp. destruct (Hown e He') as (_ & _ & q & Hq & _).
      rewrite Hq. apply blob_pointer_storageId in Hq. congruence.
  - intros c Hc Hne. rewrite Hck. apply list_elem_of_filter. split; [|done].
    destruct (Hch c Hc) as (e & He' & <- & Hnse). apply Hother; [done|congruence].
Qed.

End Lifecycle.

(** ** The handlers on concrete inputs *)

Section Runs.
Import Demo.

Lemma acme_authorized : authorized acme "acme".
Proof. split; reflexivity. Defined.

Lemma one_upload_run :
  addFile acme faq empty_world =
    (inr (result_object (JStr (url_of "kg0")) "j0"), one_upload).
Proof. vm_compute. reflexivity. Defined.

Lemma one_upload_wf : wf one_upload.
Proof. apply reachable_wf, reach_addFile, reach_empty. Defined.

Lemma one_upload_hit :
  find (same_content "acme" (contentHashFromArrayBuffer (arg_bytes faq)))
    (entries one_upload) = Some faq_entry.
Proof. vm_compute. reflexivity. Defined.

Example second_upload_result :
  (addFile acme faq one_upload).1 =
    inr (result_object (JStr (url_of "kg1")) "j0").
Proof. vm_compute. reflexivity. Qed.

Example second_upload_journal :
  journal (addFile acme faq one_upload).2 =
    [BlobStored "kg0"; NamespaceCreated "acme"; ChunksInserted "j0" 1;
     EntryInserted "j0"; BlobStored "kg1"; ConsoleDebug skip_message].
Proof. vm_compute. reflexivity. Qed.

Example no_identity_rejected :
  addFile None faq one_upload =
    (inl (ConvexError UNAUTHORIZED "Identity not found"), one_upload) ∧
  deleteFile None "j0" one_upload =
    (inl (ConvexError UNAUTHORIZED "Identity not found"), one_upload).
Proof. split; reflexivity. Qed.

Example no_organization_rejected :
  addFile no_org faq one_upload =
    (inl (ConvexError UNAUTHORIZED "Organization not found"), one_upload) ∧
  deleteFile no_org "j0" one_upload =
    (inl (ConvexError UNAUTHORIZED "Organization not found"), one_upload).
Proof. split; reflexivity. Qed.

Example owner_deletes_entry :
  let gone := (deleteFile acme "j0" one_upload).2 in
  (deleteFile acme "j0" one_upload).1 = inr () ∧
  entries gone = [] ∧ chunks gone = [] ∧ blobs gone = ∅.
Proof. repeat split; vm_compute; reflexivity. Qed.

Example other_tenant_gets_own_entry :
  (addFile other faq one_upload).1 =
    inr (result_object (JStr (url_of "kg1")) "j1").
Proof. vm_compute. reflexivity. Qed.

(** *** C1 *)

(** The second of two identical uploads is a dedup hit, yet it changes the
    Blob Store: blob ["kg1"] appears. *)
Lemma duplicate_upload_changes_blob_store :
  find (same_content "acme" (contentHashFromArrayBuffer (arg_bytes faq)))
    (entries one_upload) = Some faq_entry ∧
  blobs one_upload !! "kg1" = None ∧
  blobs (addFile acme faq one_upload).2 !! "kg1" =
    Some {| blob_bytes := arg_bytes faq; blob_type := "text/plain" |} ∧
  blobs (addFile acme faq one_upload).2 ≠ blobs one_upload.
Proof.
  split; [exact one_upload_hit|]. split; [vm_compute; reflexivity|].
  split; [vm_compute; reflexivity|].
  intros Heq. apply (f_equal (.!! "kg1")) in Heq. vm_compute in Heq. discriminate.
Qed.

Lemma addFile_duplicate_still_stores_witness :
  blobs (addFile acme faq one_upload).2 =
    <["kg1" := stored_blob faq]> (blobs one_upload) ∧
  entries (addFile acme faq one_upload).2 = entries one_upload ∧
  blobs (addFile acme faq one_upload).2 ≠ blobs one_upload.
Proof.
  destruct (addFile_duplicate_still_stores acme "acme" faq one_upload faq_entry
              acme_authorized one_upload_hit) as (Hb & He & _ & _ & Hch).
  split; [exact Hb|]. split; [exact He|]. exact (proj2 (Hch one_upload_wf)).
Defined.

(** *** C2 *)

Lemma addFile_twice_one_entry_witness :
  (∃ eid, result_object (JStr (url_of "kg0")) "j0" !! "entryId" = Some (JStr eid) ∧
          result_object (JStr (url_of "kg1")) "j0" !! "entryId" = Some (JStr eid)) ∧
  entries (addFile acme faq one_upload).2 = entries one_upload ∧
  length (List.filter (same_content "acme" "hello")
            (entries (addFile acme faq one_upload).2)) = 1%nat.
Proof.
  destruct (addFile_twice_one_entry acme "acme" faq faq empty_world
              (result_object (JStr (url_of "kg0")) "j0") one_upload
              (result_object (JStr (url_of "kg1")) "j0")
              (addFile acme faq one_upload).2
              acme_authorized eq_refl one_upload_run)
    as ((eid & H1 & H2) & He & _ & _ & _ & Hone).
  - vm_compute. reflexivity.
  - split; [|split].
    + exists eid. split; [exact H1|exact H2].
    + exact He.
    + apply Hone. vm_compute. reflexivity.
Defined.

(** *** C3 *)

(** A successful call whose returned record has no [created] field. *)
Lemma addFile_returns_no_created_flag :
  ∃ o w', addFile acme faq empty_world = (inr o, w') ∧
          o !! "created" = None ∧
          dom o = ({["url"; "entryId"]} : gset string).
Proof.
  exists (result_object (JStr (url_of "kg0")) "j0"), one_upload.
  split; [exact one_upload_run|]. split; [vm_compute; reflexivity|].
  apply result_object_fields.
Qed.

Lemma addFile_result_shape_witness :
  ∃ eid, result_object (JStr (url_of "kg0")) "j0" !! "entryId" = Some (JStr eid) ∧
         result_object (JStr (url_of "kg0")) "j0" !! "url" =
           Some (JStr (url_of "kg0")) ∧
         blobs one_upload !! "kg0" = Some (stored_blob faq).
Proof.
  destruct (addFile_result_shape acme faq empty_world _ _ one_upload_run)
    as (eid & _ & Hu & He & _ & _ & Hb).
  exists eid. split; [exact He|]. split; [exact Hu|exact Hb].
Defined.

(** *** C4 *)

(** A caller with identity and organization, but whose namespace was never
    registered, asks to delete an Entry that does not exist: the error is
    [UNAUTHORIZED], not [NOT_FOUND]. *)
Lemma deleteFile_missing_entry_unauthorized :
  authorized acme "acme" ∧
  (rag_getEntry "j0" empty_world).1 = inr None ∧
  deleteFile acme "j0" empty_world =
    (inl (ConvexError UNAUTHORIZED "Invalid namespace"), empty_world) ∧
  ∀ msg, (deleteFile acme "j0" empty_world).1 ≠ inl (ConvexError NOT_FOUND msg).
Proof.
  split; [exact acme_authorized|]. split; [reflexivity|].
  split; [vm_compute; reflexivity|]. intros msg Heq. vm_compute in Heq.
  discriminate.
Qed.

(** Another tenant trying to delete [acme]'s Entry: rejected, nothing
    touched. *)
Lemma deleteFile_failure_modes_witness :
  (∃ msg, (deleteFile other "j0" one_upload).1 = inl (ConvexError UNAUTHORIZED msg)) ∧
  (deleteFile other "j0" one_upload).2 = one_upload.
Proof.
  destruct (deleteFile_failure_modes other "j0" one_upload
              (deleteFile other "j0" one_upload).1
              (deleteFile other "j0" one_upload).2)
    as (_ & _ & Hauth & Hsame).
  - vm_compute. reflexivity.
  - destruct (Hauth "other") as (_ & _ & Hmis).
    + split; reflexivity.
    + split.
      * apply (Hmis faq_entry); [vm_compute; reflexivity|].
        vm_compute. discriminate.
      * apply (Hsame (ConvexError UNAUTHORIZED "Invalid namespace")).
        vm_compute. reflexivity.
Defined.

(** *** C5 *)

(** The extractor rejects the upload after the blob was stored, and the
    embedding fails for another one: in both cases the blob stays and no
    blob deletion is ever journalled. *)
Lemma failed_ingestion_leaves_blob :
  (addFile acme scan empty_world).1 = inl (Thrown "Unsupported MIME type") ∧
  blobs (addFile acme scan empty_world).2 !! "kg0" =
    Some {| blob_bytes := arg_bytes scan; blob_type := "application/pdf" |} ∧
  journal (addFile acme scan empty_world).2 = [BlobStored "kg0"] ∧
  (addFile acme boom empty_world).1 = inl (Thrown "embedding failed") ∧
  blobs (addFile acme boom empty_world).2 !! "kg0" =
    Some {| blob_bytes := arg_bytes boom; blob_type := "text/plain" |} ∧
  journal (addFile acme boom empty_world).2 =
    [BlobStored "kg0"; NamespaceCreated "acme"].
Proof. repeat split; vm_compute; reflexivity. Qed.

Lemma addFile_failure_keeps_blob_witness :
  blobs (addFile acme scan empty_world).2 !! "kg0" = Some (stored_blob scan) ∧
  entries (addFile acme scan empty_world).2 = [].
Proof.
  destruct (addFile_failure_keeps_blob acme "acme" scan empty_world
              (Thrown "Unsupported MIME type") (addFile acme scan empty_world).2
              acme_authorized) as (_ & Hb & He & _).
  - vm_compute. reflexivity.
  - split; [exact Hb|exact He].
Defined.

(** *** C6 *)

(** A zero-byte text file: the extracted text is empty, and [addFile]
    succeeds and commits an Entry that has no chunk. *)
Lemma empty_text_is_ingested :
  extractTextContent "kg0" (arg_filename blank) (arg_bytes blank)
    (chosen_mime blank) = inr "" ∧
  (addFile acme blank empty_world).1 =
    inr (result_object (JStr (url_of "kg0")) "j0") ∧
  entries (addFile acme blank empty_world).2 = [new_entry "j0" "kg0" "acme" blank] ∧
  chunks (addFile acme blank empty_world).2 = [].
Proof. repeat split; vm_compute; reflexivity. Qed.

Lemma addFile_no_text_check_witness :
  ∃ w', addFile acme blank empty_world =
          (inr (result_object (JStr (url_of "kg0")) "j0"), w') ∧
        entries w' = [new_entry "j0" "kg0" "acme" blank] ∧
        chunks w' = [].
Proof.
  destruct (addFile_no_text_check acme "acme" blank empty_world "" []
              acme_authorized) as (w' & Hrun & He & _ & _ & Hc).
  - vm_compute. reflexivity.
  - reflexivity.
  - reflexivity.
  - exists w'. split; [exact Hrun|]. split; [exact He|].
    apply Hc. reflexivity.
Defined.

(** *** C7 *)

Lemma guessMimeType_chain_witness :
  guessMimeType "faq.txt" (arg_bytes faq) = "text/plain" ∧
  guessMimeType "notes" (arg_bytes scan) = "application/pdf" ∧
  guessMimeType "notes" (arg_bytes faq) = "application/octet-stream" ∧
  blobs (addFile acme faq empty_world).2 !! "kg0" =
    Some {| blob_bytes := arg_bytes faq;
            blob_type := guessMimeType "faq.txt" (arg_bytes faq) |}.
Proof.
  split; [|split; [|split]].
  - destruct (guessMimeType_chain "faq.txt" (arg_bytes faq)) as (_ & Hext & _).
    apply Hext; [reflexivity|discriminate].
  - destruct (guessMimeType_chain "notes" (arg_bytes scan)) as (_ & _ & Hsniff & _).
    apply Hsniff; [reflexivity|reflexivity|discriminate].
  - destruct (guessMimeType_chain "notes" (arg_bytes faq)) as (_ & _ & _ & Hfall & _).
    apply Hfall; reflexivity.
  - destruct (guessMimeType_chain "faq.txt" (arg_bytes faq))
      as (_ & _ & _ & _ & _ & Hadd).
    destruct (Hadd acme "acme" "" None empty_world acme_authorized) as [Hb _].
    exact Hb.
Defined.

(** *** C8 *)

Lemma deleteFile_dependents_first_witness :
  journal (deleteFile acme "j0" one_upload).2 =
    journal one_upload ++
    [BlobDeleted "kg0"; ChunksDeleted "j0"; EntryDeleted "j0"] ∧
  blobs (deleteFile acme "j0" one_upload).2 !! "kg0" = None.
Proof.
  destruct (deleteFile_dependents_first acme "j0" one_upload
              (deleteFile acme "j0" one_upload).2)
    as (entry & Hget & Hj & _ & _ & Hblob & _).
  - vm_compute. reflexivity.
  - assert (Hentry : entry = faq_entry).
    { vm_compute in Hget. injection Hget as <-. vm_compute. reflexivity. }
    rewrite Hentry in Hj, Hblob. split.
    + exact Hj.
    + apply Hblob. vm_compute. reflexivity.
Defined.

(** *** C9 *)

Lemma addFile_entry_invariant_witness :
  ∃ created, entries one_upload = [] ++ created ∧ length created = 1%nat ∧
    ∀ e, e ∈ created →
      namespace e = "acme" ∧
      metadata e ≫= (.!! "uploadedBy") = Some (JStr "acme") ∧
      metadata e ≫= (.!! "storageId") = Some (JStr "kg0").
Proof.
  destruct (addFile_entry_invariant acme "acme" faq empty_world _ _
              acme_authorized one_upload_run)
    as (created & Hent & _ & Hone & Hinv).
  exists created. split; [exact Hent|]. split.
  - apply (Hone _ eq_refl). reflexivity.
  - intros e He. destruct (Hinv e He) as (Hn & Hu & Hs & _).
    split; [exact Hn|]. split; [exact Hu|exact Hs].
Defined.

(** *** C10 *)

Lemma addFile_duplicate_url_witness :
  ∃ w', addFile acme faq one_upload =
          (inr (result_object (JStr (url_of "kg1")) "j0"), w') ∧
        blobs one_upload !! "kg1" = None ∧
        blobs w' !! "kg1" = Some (stored_blob faq) ∧
        ∀ e, e ∈ entries w' → metadata e ≫= (.!! "storageId") ≠ Some (JStr "kg1").
Proof.
  destruct (addFile_duplicate_url acme "acme" faq one_upload faq_entry "hello"
              one_upload_wf acme_authorized one_upload_hit)
    as (w' & Hrun & Hfresh & Hkept & _ & Hnoref & _).
  - vm_compute. reflexivity.
  - exists w'. split; [exact Hrun|]. split; [exact Hfresh|].
    split; [exact Hkept|exact Hnoref].
Defined.

(** *** Further properties, run *)

Lemma one_upload_consistent : consistent one_upload.
Proof. apply reachable_consistent, reach_addFile, reach_empty. Defined.

Lemma two_tenants_consistent : consistent two_tenants.
Proof.
  apply reachable_consistent, reach_addFile, reach_addFile, reach_empty.
Defined.

Lemma other_authorized : authorized other "other".
Proof. split; reflexivity. Defined.


Lemma deleteFile_succeeds_iff_witness :
  (deleteFile acme "j0" one_upload).1 = inr ().
Proof.
  apply (proj2 (deleteFile_succeeds_iff acme "j0" one_upload)).
  exists "acme", faq_entry. split; [exact acme_authorized|].
  split; [vm_compute; reflexivity|]. split; vm_compute; reflexivity.
Defined.

Lemma deleteFile_removes_only_target_witness :
  (rag_getEntry "j0" (deleteFile acme "j0" two_tenants).2).1 = inr None ∧
  namespaces (deleteFile acme "j0" two_tenants).2 = namespaces two_tenants.
Proof.
  destruct (deleteFile_removes_only_target acme "j0" two_tenants
              (deleteFile acme "j0" two_tenants).2) as (Hgone & _ & _ & Hns & _).
  - vm_compute. reflexivity.
  - split; [exact Hgone|exact Hns].
Defined.

Lemma deleteFile_twice_not_found_witness :
  deleteFile acme "j0" (deleteFile acme "j0" one_upload).2 =
    (inl (ConvexError NOT_FOUND "Entry not found"),
     (deleteFile acme "j0" one_upload).2).
Proof.
  apply (deleteFile_twice_not_found acme "j0" one_upload).
  vm_compute. reflexivity.
Defined.

Lemma deleteFile_unowned_entry_stays_witness :
  ∃ msg, deleteFile acme "j0" legacy_world =
           (inl (ConvexError UNAUTHORIZED msg), legacy_world).
Proof.
  apply (deleteFile_unowned_entry_stays acme "j0" legacy_world
           {| entryId := "j0"; namespace := "acme"; key := "old.txt";
              title := "old.txt"; contentHash := "old"; metadata := None |}).
  - reflexivity.
  - intros owner. discriminate.
Defined.

Lemma addFile_created_entry_fields_witness :
  ∃ e m, entries (addFile acme scan_as_text empty_world).2 = [] ++ [e] ∧
         metadata e = Some m ∧
         m !! "filename" = Some (JStr "scan.txt") ∧
         m !! "category" = Some (JStr "manuals").
Proof.
  destruct (addFile_created_entry_fields acme "acme" scan_as_text empty_world
              (result_object (JStr (url_of "kg0")) "j0")
              (addFile acme scan_as_text empty_world).2 acme_authorized)
    as (e & m & He & _ & _ & _ & _ & Hm & _ & Hf & Hc).
  - reflexivity.
  - vm_compute. reflexivity.
  - exists e, m. split; [exact He|]. split; [exact Hm|].
    split; [exact Hf|exact Hc].
Defined.

Lemma addFile_only_adds_witness :
  entries one_upload `prefix_of` entries two_tenants ∧
  blobs one_upload ⊆ blobs two_tenants.
Proof.
  destruct (addFile_only_adds other faq one_upload one_upload_wf)
    as (He & _ & Hb & _).
  split; [exact He|exact Hb].
Defined.

Lemma reachable_stores_consistent_witness :
  NoDup (entryId <$> entries two_tenants) ∧
  ∀ e, e ∈ entries two_tenants →
       metadata e ≫= (.!! "uploadedBy") = Some (JStr (namespace e)).
Proof.
  destruct (reachable_stores_consistent two_tenants) as (Hnd & Hown & _).
  - apply reach_addFile, reach_addFile, reach_empty.
  - split; [exact Hnd|]. intros e He. exact (proj1 (Hown e He)).
Defined.

Lemma upload_then_delete_restores_witness :
  ∃ eid w2,
    deleteFile other eid two_tenants = (inr (), w2) ∧
    entries w2 = entries one_upload ∧
    chunks w2 = chunks one_upload ∧
    blobs w2 = blobs one_upload.
Proof.
  destruct (upload_then_delete_restores other "other" faq one_upload
              (result_object (JStr (url_of "kg1")) "j1") two_tenants
              one_upload_consistent other_authorized)
    as (eid & w2 & _ & Hdel & He & Hc & Hb).
  - vm_compute. reflexivity.
  - vm_compute. reflexivity.
  - exists eid, w2. split; [exact Hdel|]. split; [exact He|].
    split; [exact Hc|exact Hb].
Defined.

Lemma duplicate_then_delete_leaves_blob_witness :
  ∃ w2,
    deleteFile acme "j0" (addFile acme faq one_upload).2 = (inr (), w2) ∧
    (rag_getEntry "j0" w2).1 = inr None ∧
    blobs w2 !! "kg1" = Some (stored_blob faq).
Proof.
  destruct (duplicate_then_delete_leaves_blob acme "acme" faq one_upload
              faq_entry (result_object (JStr (url_of "kg1")) "j0")
              (addFile acme faq one_upload).2
              one_upload_consistent acme_authorized one_upload_hit)
    as (w2 & _ & Hdel & Hgone & Hblob & _).
  - vm_compute. reflexivity.
  - exists w2. split; [exact Hdel|]. split; [exact Hgone|exact Hblob].
Defined.

Lemma uploader_can_delete_witness :
  ∃ eid, result_object (JStr (url_of "kg1")) "j1" !! "entryId" = Some (JStr eid) ∧
         (deleteFile other eid two_tenants).1 = inr ().
Proof.
  apply (uploader_can_delete other "other" faq one_upload
           (result_object (JStr (url_of "kg1")) "j1") two_tenants
           one_upload_consistent other_authorized).
  vm_compute. reflexivity.
Defined.

Lemma deleteFile_stays_in_namespace_witness :
  new_entry "j1" "kg1" "other" faq ∈ entries (deleteFile acme "j0" two_tenants).2 ∧
  blobs (deleteFile acme "j0" two_tenants).2 !! "kg1" = blobs two_tenants !! "kg1".
Proof.
  destruct (deleteFile_stays_in_namespace acme "acme" "j0" two_tenants
              (deleteFile acme "j0" two_tenants).2
              two_tenants_consistent acme_authorized) as (_ & Hkeep & _).
  - vm_compute. reflexivity.
  - destruct (Hkeep (new_entry "j1" "kg1" "other" faq)) as [Hin Hblob].
    + replace (entries two_tenants)
        with [faq_entry; new_entry "j1" "kg1" "other" faq]
        by (vm_compute; reflexivity).
      apply list_elem_of_further, list_elem_of_here.
    + discriminate.
    + split; [exact Hin|]. apply Hblob. vm_compute. reflexivity.
Defined.

End Runs.
